(** * ipro_in_tax_division: InterPro hits inside an NCBI taxonomic division

    A shallow embedding of [ipro_in_tax_division.py] and the proofs of its
    specified properties.

    The script is a linear pipeline: resolve the descendants of a taxon,
    fetch every protein annotated with an InterPro entry (paginated REST
    API), keep the proteins of the descendants, cache them in a pickle
    file and draw the taxonomic tree.

    Conventions of the embedding:
    - Python objects decoded from JSON are the inductive [value]; a Python
      [str] is a Rocq [string] whose characters are the code points below
      256; a [float] is an IEEE-754 binary64 number ([spec_float]).
    - Python exceptions are the inductive [exn]; a computation without
      side effects returns a [result].
    - Code that talks to the outside (HTTP session, files, the ete3
      taxonomy, the standard output) runs in the monad [M] over a [state]
      that records, in order, every observable [event]; what the outside
      answers is read from a [world].
    - The only loop that may not terminate, the page loop of
      [get_query_from_interpro], takes a fuel: it answers [OutOfFuel]
      when the fuel does not suffice.
    - Integers are unbounded, as in Python.  An integer is read from a
      string of at most 4300 digits, the limit of the interpreter at its
      default ([sys.get_int_max_str_digits()]); the same limit on the
      integers written to a string is left out: the identifiers a run
      writes were read from the command line or from the service.
    - What belongs to the libraries (ete3, requests, the file system) is
      asked to the [world]; memory is not bounded. *)

From Stdlib Require Import ZArith List String Ascii Lia.
From Stdlib Require Import Floats.SpecFloat.
From stdpp Require Import base option list strings gmap pretty.

#[local] Set Warnings "-register-all".
Local Open Scope string_scope.
Local Open Scope list_scope.

(** ** Python values and exceptions *)

(** What [Response.json()] can return.  The bindings of a dict are kept in
    insertion order and a key is bound at most once (the decoder keeps the
    last occurrence of a repeated key). *)
Inductive value : Type :=
| VNone
| VBool (b : bool)
| VInt (z : Z)
| VFloat (f : spec_float)
| VStr (s : string)
| VList (l : list value)
| VDict (d : list (string * value)).

Inductive exn : Type :=
| KeyError (k : value)
| IndexError
| TypeError
| ValueError
| ZeroDivisionError
| OverflowError
| AttributeError
| NameError
| UnboundLocalError
| JSONDecodeError
| UnpicklingError
| TreeError
| SyntaxError
| ModuleNotFoundError
| PermissionError.

Inductive result (A : Type) : Type :=
| Ok (a : A)
| Raise (e : exn).
Arguments Ok {A} a.
Arguments Raise {A} e.

Definition rbind {A B} (r : result A) (k : A -> result B) : result B :=
  match r with
  | Ok a => k a
  | Raise e => Raise e
  end.

Declare Scope py_scope.
Delimit Scope py_scope with py.
Notation "x <- c ;; k" := (rbind c (fun x => k))
  (at level 100, c at next level, right associativity) : py_scope.
Notation "c ;;; k" := (rbind c (fun _ => k))
  (at level 100, right associativity) : py_scope.

(** [mapM f l]: apply [f] from left to right, stop at the first exception
    (a list comprehension). *)
Fixpoint mapM {A B} (f : A -> result B) (l : list A) : result (list B) :=
  match l with
  | [] => Ok []
  | x :: l' => (y <- f x ;; ys <- mapM f l' ;; Ok (y :: ys))%py
  end.

(** [foldM f a l]: thread an accumulator from left to right, stop at the
    first exception (a [for] loop updating one object). *)
Fixpoint foldM {A B} (f : A -> B -> result A) (a : A) (l : list B) : result A :=
  match l with
  | [] => Ok a
  | x :: l' => (a' <- f a x ;; foldM f a' l')%py
  end.

(** ** Builtins *)

Module Py.

Fixpoint dict_get (d : list (string * value)) (k : string) : option value :=
  match d with
  | [] => None
  | (k', v) :: d' => if String.eqb k' k then Some v else dict_get d' k
  end.

Definition chars (s : string) : list value :=
  map (fun c => VStr (String c EmptyString)) (list_ascii_of_string s).

(** [seq[i]] for a list or a string: a negative index counts from the
    end. *)
Definition index {A} (l : list A) (i : Z) : result A :=
  let n := Z.of_nat (length l) in
  let j := if (i <? 0)%Z then (i + n)%Z else i in
  if ((0 <=? j)%Z && (j <? n)%Z)%bool then
    match nth_error l (Z.to_nat j) with
    | Some x => Ok x
    | None => Raise IndexError
    end
  else Raise IndexError.

Definition as_index (k : value) : option Z :=
  match k with
  | VInt i => Some i
  | VBool b => Some (if b then 1%Z else 0%Z)
  | _ => None
  end.

(** [v[k]] *)
Definition getitem (v k : value) : result value :=
  match v with
  | VDict d =>
      match k with
      | VStr s =>
          match dict_get d s with
          | Some x => Ok x
          | None => Raise (KeyError k)
          end
      | VList _ | VDict _ => Raise TypeError          (* unhashable key *)
      | _ => Raise (KeyError k)                       (* the keys are strings *)
      end
  | VList l =>
      match as_index k with
      | Some i => index l i
      | None => Raise TypeError
      end
  | VStr s =>
      match as_index k with
      | Some i => index (chars s) i
      | None => Raise TypeError
      end
  | _ => Raise TypeError                              (* not subscriptable *)
  end.

(** [len(v)] *)
Definition len (v : value) : result nat :=
  match v with
  | VList l => Ok (length l)
  | VStr s => Ok (String.length s)
  | VDict d => Ok (length d)
  | _ => Raise TypeError
  end.

(** The items a [for] loop over [v] visits. *)
Definition iter (v : value) : result (list value) :=
  match v with
  | VList l => Ok l
  | VStr s => Ok (chars s)
  | VDict d => Ok (map (fun kv => VStr (fst kv)) d)
  | _ => Raise TypeError
  end.

(** [l.append(x)]: the list after the call. *)
Definition append (l x : value) : result value :=
  match l with
  | VList xs => Ok (VList (xs ++ [x]))
  | _ => Raise AttributeError
  end.

(** *** [int(x)] *)

Definition is_space (c : ascii) : bool :=
  let n := N_of_ascii c in
  (((9 <=? n)%N && (n <=? 13)%N) || (n =? 32)%N || (n =? 133)%N || (n =? 160)%N)%bool.

Definition digit (c : ascii) : option Z :=
  let n := N_of_ascii c in
  if ((48 <=? n)%N && (n <=? 57)%N)%bool then Some (Z.of_N n - 48)%Z else None.

Fixpoint lstrip (s : list ascii) : list ascii :=
  match s with
  | c :: s' => if is_space c then lstrip s' else s
  | [] => []
  end.

(** [sys.get_int_max_str_digits()], at its default. *)
Definition max_str_digits : nat := 4300.

(** The digits after a first digit, single underscores allowed between
    two digits; returns the number, how many digits were read (leading
    zeros count, underscores do not) and what follows them. *)
Fixpoint digits (acc : Z) (n : nat) (s : list ascii) : option (Z * nat * list ascii) :=
  match s with
  | [] => Some (acc, n, [])
  | c :: s' =>
      match digit c with
      | Some d => digits (10 * acc + d)%Z (S n) s'
      | None =>
          if Ascii.eqb c "_"%char then
            match s' with
            | c' :: s'' =>
                match digit c' with
                | Some d => digits (10 * acc + d)%Z (S n) s''
                | None => None
                end
            | [] => None
            end
          else Some (acc, n, s)
      end
  end.

Definition unsigned (s : list ascii) : option Z :=
  match s with
  | c :: s' =>
      match digit c with
      | Some d =>
          match digits d 1 s' with
          | Some (z, n, rest) =>
              if (n <=? max_str_digits)%nat then
                match lstrip rest with [] => Some z | _ => None end
              else None
          | None => None
          end
      | None => None
      end
  | [] => None
  end.

(** [int(s)] for a string, base 10: blanks around, an optional sign
    right before the digits, no more digits than the limit; anything else
    is a [ValueError]. *)
Definition int_of_string (s : string) : option Z :=
  match lstrip (list_ascii_of_string s) with
  | c :: s' =>
      if Ascii.eqb c "-"%char then Z.opp <$> unsigned s'
      else if Ascii.eqb c "+"%char then unsigned s'
      else unsigned (c :: s')
  | [] => None
  end.

(** [int(f)] for a float: truncation towards zero. *)
Definition int_of_float (f : spec_float) : result Z :=
  match f with
  | S754_zero _ => Ok 0%Z
  | S754_infinity _ => Raise OverflowError
  | S754_nan => Raise ValueError
  | S754_finite s m e =>
      let a := if (0 <=? e)%Z then (Z.pos m * 2 ^ e)%Z else (Z.pos m / 2 ^ (- e))%Z in
      Ok (if s then (- a)%Z else a)
  end.

Definition int (v : value) : result Z :=
  match v with
  | VInt z => Ok z
  | VBool b => Ok (if b then 1%Z else 0%Z)
  | VFloat f => int_of_float f
  | VStr s =>
      match int_of_string s with
      | Some z => Ok z
      | None => Raise ValueError
      end
  | _ => Raise TypeError
  end.

(** *** [a / b] on integers and [round(x)] *)

Definition float_of_Z (z : Z) : spec_float :=
  match z with
  | Z0 => S754_zero false
  | Zpos p => S754_finite false p 0
  | Zneg p => S754_finite true p 0
  end.

(** True division of two integers: the exact quotient rounded once to
    binary64, to nearest, ties to even. *)
Definition truediv (a b : Z) : result spec_float :=
  if (b =? 0)%Z then Raise ZeroDivisionError
  else
    match SFdiv 53 1024 (float_of_Z a) (float_of_Z b) with
    | S754_infinity _ | S754_nan => Raise OverflowError
    | q => Ok q
    end.

(** [round(x)] with one argument: to the nearest integer, ties to
    even. *)
Definition round (f : spec_float) : result Z :=
  match f with
  | S754_zero _ => Ok 0%Z
  | S754_infinity _ => Raise OverflowError
  | S754_nan => Raise ValueError
  | S754_finite s m e =>
      let a :=
        if (0 <=? e)%Z then (Z.pos m * 2 ^ e)%Z
        else
          let d := (2 ^ (- e))%Z in
          let q := (Z.pos m / d)%Z in
          let r := (Z.pos m mod d)%Z in
          if (2 * r <? d)%Z then q
          else if (d <? 2 * r)%Z then (q + 1)%Z
          else if Z.even q then q else (q + 1)%Z
      in
      Ok (if s then (- a)%Z else a)
  end.

End Py.

(** Chained subscripts, evaluated from left to right:
    [(Ok v).["a"].[0]] is [v['a'][0]]. *)
Definition subscript (r : result value) (k : value) : result value :=
  rbind r (fun v => Py.getitem v k).
Arguments subscript : simpl never.

Notation "r .[ k ]" := (subscript r (VStr k))
  (at level 1, left associativity, format "r .[ k ]") : py_scope.
Notation "r .[0]" := (subscript r (VInt 0))
  (at level 1, left associativity, format "r .[0]") : py_scope.

(** ** The filter stage *)

Record Protein : Type := {
  prot_acc : value;
  prot_len : value;
  prot_tax : Z;
  dom_loc : list (value * value)
}.

(** One item of the comprehension of line 86: [(x['start'], x['end'])]. *)
Definition location (x : value) : result (value * value) :=
  (s <- (Ok x).["start"] ;; e <- (Ok x).["end"] ;; Ok (s, e))%py.

(** Lines 85-88: the four fields of a raw record, read in the order of the
    source. *)
Definition extract (protein : value) : result (value * list (value * value) * value * Z) :=
  (prot_acc <- (Ok protein).["metadata"].["accession"] ;;
   fragments <- (Ok protein).["entries"].[0].["entry_protein_locations"].[0].["fragments"] ;;
   xs <- Py.iter fragments ;;
   locations <- mapM location xs ;;
   prot_len <- (Ok protein).["metadata"].["length"] ;;
   taxId <- (Ok protein).["metadata"].["source_organism"].["taxId"] ;;
   tax_acc <- Py.int taxId ;;
   Ok (prot_acc, locations, prot_len, tax_acc))%py.

(** The body of the [for] loop: [processed_obj] after one more record. *)
Definition process_record (tax_to_keep : gset Z) (processed_obj : list Protein)
    (protein : value) : result (list Protein) :=
  (fields <- extract protein ;;
   let '(prot_acc, locations, prot_len, tax_acc) := fields in
   if decide (tax_acc ∈ tax_to_keep) then
     Ok (processed_obj ++
         [{| prot_acc := prot_acc; prot_len := prot_len;
             prot_tax := tax_acc; dom_loc := locations |}])
   else Ok processed_obj)%py.

Definition process_interpro_obj (ip_obj : value) (tax_to_keep : gset Z)
    : result (list Protein) :=
  (proteins <- Py.iter ip_obj ;;
   foldM (process_record tax_to_keep) [] proteins)%py.

(** What the specification calls a raw API record, and the compact record
    it stands for: [metadata.accession], [metadata.length],
    [metadata.source_organism.taxId] read as an integer and the (start, end)
    pairs of [entries[0].entry_protein_locations[0].fragments]. *)
Record raw_record (r : value) (p : Protein) : Prop := {
  raw_accession : (Ok r).["metadata"].["accession"]%py = Ok (prot_acc p);
  raw_length : (Ok r).["metadata"].["length"]%py = Ok (prot_len p);
  raw_taxid : exists t,
    (Ok r).["metadata"].["source_organism"].["taxId"]%py = Ok t /\
    Py.int t = Ok (prot_tax p);
  raw_fragments : exists fragments xs,
    (Ok r).["entries"].[0].["entry_protein_locations"].[0].["fragments"]%py = Ok fragments /\
    Py.iter fragments = Ok xs /\
    Forall2 (fun x se => (Ok x).["start"]%py = Ok (fst se) /\ (Ok x).["end"]%py = Ok (snd se))
            xs (dom_loc p)
}.

(** ** The outside world *)

(** What [session.get(url, timeout=10.0)] does: it raises (no connection,
    timeout, malformed URL, ...), or it returns a response with its [ok]
    flag and, when the body decodes, the object [json()] returns. *)
Inductive response : Type :=
| ConnFail
| Resp (ok : bool) (body : option value).

(** The taxonomic tree of ete3, as far as the script touches it: the nodes
    by name, each with what was attached to it, in order. *)
Inductive face : Type :=
| SeqMotifFace (seq : string) (motifs : list value)
| TextFace (text : value).

Inductive annotation : Type :=
| AddFace (f : face) (column : Z) (position : string)
| AddFeature (name : string) (v : value).

Abbreviation tree := (gmap string (list annotation)).

(** A file, under the name the script gives it: a pickled list of
    [Protein], the drawing of a tree, or anything else; [pickle.load]
    accepts the first only. *)
Inductive file : Type :=
| Pickled (ps : list Protein)
| Unreadable
| Drawing (t : tree).

(** How [with open(path, 'wb') as f: pickle.dump(ps, f, ...)] ends: the
    list is written; or [open] raises and no file is created; or the file
    is opened, hence created or emptied, and the writing raises. *)
Inductive written : Type :=
| Written
| NotOpened (e : exn)
| Broken (e : exn).

Inductive event : Type :=
| EvPrint (s : string)
| EvCall (f : string)                      (* [main] calls a stage of the pipeline *)
| EvSleep (seconds : Z)
| EvGet (url : value)
| EvBar (n total : Z)                      (* the progress bar is drawn *)
| EvTaxa (tax_id : Z)                      (* descendants asked to the taxonomy *)
| EvExists (path : string)
| EvLoad (path : string)
| EvDump (path : string) (ps : list Protein)
| EvRender (path : string) (t : tree)
| EvShow (name : string).

Record world : Type := {
  version_info : Z * Z;
  (** [from dataclasses import dataclass] (line 15) and [import requests]
      (line 18), outside any [try] *)
  import_dataclasses : result unit;
  import_requests : result unit;
  (** whether the imports of lines 22 and 29 succeed *)
  ete3_installed : bool;
  tqdm_installed : bool;
  (** [NCBITaxa()] (line 26): the taxonomy database is opened, or
      downloaded first *)
  ncbi_taxa : result unit;
  (** the answer to the [i]-th request of the session *)
  session_get : nat -> value -> response;
  (** [ncbi.get_descendant_taxa(tax_id)] *)
  descendant_taxa : Z -> result (gset Z);
  (** [ncbi.get_descendant_taxa(tax_id, intermediate_nodes=False, return_tree=True)] *)
  descendant_tree : Z -> result tree;
  (** [SeqMotifFace(seq=..., motifs=...)]: ete3 builds the face or
      raises *)
  seq_motif_face : string -> list value -> result unit;
  (** [final_tree.render(file_name, ...)]: what the call returns or raises,
      and whether it leaves a file called [file_name] *)
  tree_render : string -> tree -> result unit * bool;
  (** [final_tree.show(name=...)] *)
  tree_show : string -> tree -> result unit;
  (** line 185 on the file [path] with the list [ps] *)
  file_write : string -> list Protein -> written
}.

Record state : Type := {
  requests : nat;
  files : gmap string file;
  trace : list event
}.

Inductive outcome (A : Type) : Type :=
| Done (a : A)
| Raised (e : exn)
| OutOfFuel.
Arguments Done {A} a.
Arguments Raised {A} e.
Arguments OutOfFuel {A}.

Definition M (A : Type) : Type := state -> outcome A * state.

Definition ret {A} (a : A) : M A := fun st => (Done a, st).

Definition bind {A B} (m : M A) (k : A -> M B) : M B :=
  fun st =>
    match m st with
    | (Done a, st') => k a st'
    | (Raised e, st') => (Raised e, st')
    | (OutOfFuel, st') => (OutOfFuel, st')
    end.

Definition raise {A} (e : exn) : M A := fun st => (Raised e, st).

Definition out_of_fuel {A} : M A := fun st => (OutOfFuel, st).

Definition lift {A} (r : result A) : M A :=
  match r with
  | Ok a => ret a
  | Raise e => raise e
  end.

Definition emit (e : event) : M unit :=
  fun st =>
    (Done tt, {| requests := requests st; files := files st; trace := trace st ++ [e] |}).

(** [try: m / except: handler / else: k], with a bare [except]. *)
Definition try_except_else {A B} (m : M A) (handler : M B) (k : A -> M B) : M B :=
  fun st =>
    match m st with
    | (Done a, st') => k a st'
    | (Raised _, st') => handler st'
    | (OutOfFuel, st') => (OutOfFuel, st')
    end.

(** A call of a function of the script: the call is recorded, then the
    body runs. *)
Definition call {A} (f : string) (body : M A) : M A :=
  bind (emit (EvCall f)) (fun _ => body).

Declare Scope m_scope.
Delimit Scope m_scope with M.
Notation "x <- c ;; k" := (bind c (fun x => k))
  (at level 100, c at next level, right associativity) : m_scope.
Notation "c ;;; k" := (bind c (fun _ => k))
  (at level 100, right associativity) : m_scope.

(** ** The script *)

Section Script.

Context (w : world).

(** *** Imports (lines 11-34) *)

Definition TQDM_ON : bool := tqdm_installed w.

(** The interpreters that compile the file: its f-strings and the
    annotated attributes of [Protein] came with Python 3.6.  Before any
    line runs, the others stop on a [SyntaxError]. *)
Definition compiles (version : Z * Z) : bool :=
  let '(major, minor) := version in
  ((3 <? major) || ((major =? 3) && (6 <=? minor)))%Z%bool.

Definition module_init : M unit :=
  let '(major, minor) := version_info w in
  if negb (compiles (major, minor)) then raise SyntaxError
  else if (negb (3 <=? major)%Z && negb (8 <=? minor)%Z)%bool then
    raise TypeError                       (* line 13: [raise] of a string *)
  else
    (lift (import_dataclasses w) ;;;
     lift (import_requests w) ;;;
     if negb (ete3_installed w) then
       raise TypeError                    (* line 24: [raise] of a string *)
     else
       (lift (ncbi_taxa w) ;;;
        if tqdm_installed w then ret tt
        else
          emit (EvPrint ("Exception:No module named 'tqdm'. " +:+
                         "Tqdm instalation optional/recommended. Continuing without."))))%M.

(** *** The fetch stage (lines 47-79) *)

(** [get_pg] returns a pair, or [None] when the response is not [ok].
    In the [except] branch the message to print reads [r], which the
    failed assignment left unbound: evaluating it raises, nothing is
    printed and [(None, None)] is never returned. *)
Definition get_pg (url : value) : M (option (value * value)) :=
  (emit (EvSleep 1) ;;;
   emit (EvGet url) ;;;
   fun st =>
     let i := requests st in
     let st' := {| requests := S i; files := files st; trace := trace st |} in
     match session_get w i url with
     | ConnFail => raise UnboundLocalError st'
     | Resp ok body =>
         if ok then
           (_temp_obj <- lift (match body with
                               | Some o => Ok o
                               | None => Raise JSONDecodeError
                               end) ;;
            next_page <- lift ((Ok _temp_obj).["next"])%py ;;
            ret (Some (_temp_obj, next_page))) st'
         else ret None st'
     end)%M.

(** [a, b = r] *)
Definition unpack (r : option (value * value)) : result (value * value) :=
  match r with
  | Some p => Ok p
  | None => Raise TypeError
  end.

Record progress : Type := {
  bar_n : Z;
  bar_total : Z;
  bar_disable : bool
}.

(** [tqdm(total=total, initial=initial, disable=disable)]: the name
    [tqdm] is bound only when the import succeeded. *)
Definition tqdm (total initial : Z) (disable : bool) : M progress :=
  (if tqdm_installed w then
     let pbar := {| bar_n := initial; bar_total := total; bar_disable := disable |} in
     if disable then ret pbar
     else (emit (EvBar initial total) ;;; ret pbar)
   else raise NameError)%M.

Definition update (pbar : progress) (n : Z) : M progress :=
  (if bar_disable pbar then ret pbar
   else
     let pbar' := {| bar_n := bar_n pbar + n; bar_total := bar_total pbar;
                     bar_disable := bar_disable pbar |} in
     emit (EvBar (bar_n pbar') (bar_total pbar')) ;;; ret pbar')%M.

(** Line 67. *)
Definition page_estimate (obj : value) : result Z :=
  (count <- (Ok obj).["count"] ;;
   n <- Py.int count ;;
   results <- (Ok obj).["results"] ;;
   l <- Py.len results ;;
   q <- Py.truediv n (Z.of_nat l) ;;
   Py.round q)%py.

(** The [while] loop of lines 69-77. [results] is the list object
    [obj['results']], the only part of [obj] the loop and the [return]
    use. *)
Fixpoint page_loop (fuel : nat) (results next_page : value) (pbar : progress)
    : M value :=
  match next_page with
  | VNone => ret results
  | _ =>
      match fuel with
      | O => out_of_fuel
      | S fuel' =>
          try_except_else
            (r <- get_pg next_page ;; lift (unpack r))%M
            (page_loop fuel' results next_page pbar)            (* [continue] *)
            (fun p =>
               let '(new_obj, next_page') := p in
               (new_results <- lift ((Ok new_obj).["results"])%py ;;
                entries <- lift (Py.iter new_results) ;;
                results' <- lift (foldM Py.append results entries) ;;
                pbar' <- update pbar 1 ;;
                page_loop fuel' results' next_page' pbar')%M)
      end
  end.

Definition base : string :=
  "https://www.ebi.ac.uk/interpro/api/protein/uniprot/entry/interpro/".

(** ["/".join([base, hit_id])] *)
Definition base_url (hit_id : string) : string := base +:+ "/" +:+ hit_id.

Definition get_query_from_interpro (fuel : nat) (hit_id : string) : M value :=
  (r <- get_pg (VStr (base_url hit_id)) ;;
   p <- lift (unpack r) ;;
   let '(obj, next_page) := p in
   total <- lift (page_estimate obj) ;;
   pbar <- tqdm total 1 TQDM_ON ;;
   results <- lift ((Ok obj).["results"])%py ;;
   page_loop fuel results next_page pbar)%M.

(** *** The tree stage (lines 97-173) *)

(** ["-" * length] *)
Definition dashes (length : value) : result string :=
  match length with
  | VInt n => Ok (string_of_list_ascii (repeat "-"%char (Z.to_nat n)))
  | VBool b => Ok (string_of_list_ascii (repeat "-"%char (if b then 1 else 0)))
  | _ => Raise TypeError
  end.

(** [qk_seq(length, doms)]: the dict of the keyword arguments [seq] and
    [motifs]. *)
Definition qk_seq (queried_dom : string) (length : value) (doms : list (value * value))
    : result (string * list value) :=
  let dom_motifs :=
    map (fun dom =>
           VList [fst dom; snd dom; VStr "()"; VNone; VInt 10; VStr "DodgerBlue";
                  VStr "DodgerBlue"; VStr ("arial|6|black|" +:+ queried_dom)])
        doms in
  (seq <- dashes length ;; Ok (seq, dom_motifs))%py.

(** [SeqMotifFace] called on the keyword arguments [kwargs] (line 132):
    the face, when ete3 accepts them. *)
Definition new_SeqMotifFace (kwargs : string * list value) : result face :=
  (seq_motif_face w (fst kwargs) (snd kwargs) ;;;
   Ok (SeqMotifFace (fst kwargs) (snd kwargs)))%py.

(** [(t & name).add_face(...)] and [(t & name).add_feature(...)]: the
    search raises when no node has that name. *)
Definition attach (t : tree) (name : string) (a : annotation) : result tree :=
  match t !! name with
  | Some node => Ok (<[name := node ++ [a]]> t)
  | None => Raise TreeError
  end.

(** [dict_tax_w_prot], in insertion order. *)
Fixpoint record_acc (d : list (Z * list value)) (tax : Z) (acc : value)
    : list (Z * list value) :=
  match d with
  | [] => [(tax, [acc])]
  | (k, accs) :: d' =>
      if (k =? tax)%Z then (k, accs ++ [acc]) :: d'
      else (k, accs) :: record_acc d' tax acc
  end.

(** [",".join(l)] *)
Fixpoint join_comma (l : list value) : result string :=
  match l with
  | [] => Ok EmptyString
  | [VStr s] => Ok s
  | VStr s :: l' => (r <- join_comma l' ;; Ok (s +:+ "," +:+ r))%py
  | _ => Raise TypeError
  end.

(** The first loop of [gen_tree]. *)
Definition add_protein (queried_dom : string) (acc : tree * list (Z * list value))
    (prot : Protein) : result (tree * list (Z * list value)) :=
  let '(t, dict_tax_w_prot) := acc in
  (kwargs <- qk_seq queried_dom (prot_len prot) (dom_loc prot) ;;
   seqFace <- new_SeqMotifFace kwargs ;;
   t1 <- attach t (pretty (prot_tax prot)) (AddFace seqFace 1 "aligned") ;;
   let textFace := TextFace (prot_acc prot) in
   t2 <- attach t1 (pretty (prot_tax prot)) (AddFace textFace 0 "aligned") ;;
   Ok (t2, record_acc dict_tax_w_prot (prot_tax prot) (prot_acc prot)))%py.

(** The second loop of [gen_tree]. *)
Definition add_features (t : tree) (entry : Z * list value) : result tree :=
  let '(prot_tax, accs) := entry in
  (t1 <- attach t (pretty prot_tax) (AddFeature "num_prots" (VInt (Z.of_nat (length accs)))) ;;
   match accs with
   | [acc] => attach t1 (pretty prot_tax) (AddFeature "prot_acc" acc)
   | _ =>
       joined <- join_comma accs ;;
       attach t1 (pretty prot_tax) (AddFeature "prot_acc" (VStr joined))
   end)%py.

Definition gen_tree (ipr_obj : list Protein) (queried_dom : string) (tree_file : tree)
    : result tree :=
  (r <- foldM (add_protein queried_dom) (tree_file, []) ipr_obj ;;
   foldM add_features (fst r) (snd r))%py.

(** The file name given to [render] (line 172). *)
Definition render_path (save_to_dir queried_dom : string) (main_tax_id : Z) : string :=
  save_to_dir +:+ queried_dom +:+ "_in_" +:+ pretty main_tax_id +:+ ".pdf".

(** The file [path] is created or replaced. *)
Definition write_file (path : string) (f : file) : M unit :=
  fun st =>
    (Done tt, {| requests := requests st;
                 files := <[path := f]> (files st);
                 trace := trace st |}).

(** [final_tree.render(file_name, ...)] *)
Definition render (file_name : string) (final_tree : tree) : M unit :=
  (emit (EvRender file_name final_tree) ;;;
   (if snd (tree_render w file_name final_tree)
    then write_file file_name (Drawing final_tree) else ret tt) ;;;
   lift (fst (tree_render w file_name final_tree)))%M.

(** [layout], [colors] and [gene_manipul] only serve the style [ts]: ete3
    runs [layout] on the nodes while it draws, inside [render] and [show],
    whose outcome the world decides. *)
Definition make_tree (ipr_obj : list Protein) (main_tax_id : Z)
    (queried_dom save_to_dir : string) : M unit :=
  (tree_file <- lift (descendant_tree w main_tax_id) ;;
   final_tree <- lift (gen_tree ipr_obj queried_dom tree_file) ;;
   render (render_path save_to_dir queried_dom main_tax_id) final_tree ;;;
   emit (EvShow queried_dom) ;;;
   lift (tree_show w queried_dom final_tree))%M.

(** *** The pipeline (lines 175-189) *)

(** The name of the cache file (line 178). *)
Definition cache_path (tax_id : Z) (query_dom_id : string) : string :=
  "ip_obj_" +:+ pretty tax_id +:+ "_" +:+ query_dom_id +:+ ".pkl".

Definition os_path_exists (path : string) : M bool :=
  (emit (EvExists path) ;;;
   fun st => (Done (bool_decide (is_Some (files st !! path))), st))%M.

(** [with open(path, 'rb') as f: pickle.load(f)] *)
Definition pickle_load (path : string) : M (list Protein) :=
  (emit (EvLoad path) ;;;
   fun st =>
     match files st !! path with
     | Some (Pickled ps) => (Done ps, st)
     | _ => (Raised UnpicklingError, st)
     end)%M.

(** [with open(path, 'wb') as f: pickle.dump(ps, f, ...)] *)
Definition pickle_dump (path : string) (ps : list Protein) : M unit :=
  (emit (EvDump path ps) ;;;
   match file_write w path ps with
   | Written => write_file path (Pickled ps)
   | NotOpened e => raise e
   | Broken e => write_file path Unreadable ;;; raise e
   end)%M.

Definition main (fuel : nat) (tax_id : Z) (query_dom_id save_to_dir : string) : M unit :=
  (emit (EvTaxa tax_id) ;;;
   descendents <- lift (descendant_taxa w tax_id) ;;
   let path_file := cache_path tax_id query_dom_id in
   cached <- os_path_exists path_file ;;
   process_itrpro_obj <-
     (if cached : bool then pickle_load path_file
      else
        itrpro_obj <- call "get_query_from_interpro"
                        (get_query_from_interpro fuel query_dom_id) ;;
        process_itrpro_obj <- call "process_interpro_obj"
                                (lift (process_interpro_obj itrpro_obj descendents)) ;;
        pickle_dump path_file process_itrpro_obj ;;;
        ret process_itrpro_obj) ;;
   call "make_tree" (make_tree process_itrpro_obj tax_id query_dom_id save_to_dir) ;;;
   emit (EvPrint "Finished script."))%M.

(** *** The command line (lines 192-203) *)

(** [argv[i]] *)
Definition argv_get (argv : list string) (i : nat) : result string :=
  match nth_error argv i with
  | Some a => Ok a
  | None => Raise IndexError
  end.

(** The [try] block; its bare [except] executes [raise] on a string, which
    is itself a [TypeError]. *)
Definition parse_args (argv : list string) : result (Z * string * string) :=
  match
    (a1 <- argv_get argv 1 ;;
     tax_id <- Py.int (VStr a1) ;;
     query_dom_id <- argv_get argv 2 ;;
     save_to_dir <- (if (length argv =? 3)%nat then argv_get argv 3 else Ok "./") ;;
     Ok (tax_id, query_dom_id, save_to_dir))%py
  with
  | Ok args => Ok args
  | Raise _ => Raise TypeError
  end.

(** The script run as a program with the command line [argv]
    ([argv[0]] is the name of the script). *)
Definition program (fuel : nat) (argv : list string) : M unit :=
  (module_init ;;;
   args <- lift (parse_args argv) ;;
   let '(tax_id, query_dom_id, save_to_dir) := args in
   main fuel tax_id query_dom_id save_to_dir)%M.

End Script.

Definition initial_state (fs : gmap string file) : state :=
  {| requests := 0; files := fs; trace := [] |}.

(** ** Observations on a run *)

(** The state right after one call of [get_pg]: one second of sleep, one
    request, nothing printed. *)
Definition requested (url : value) (st : state) : state :=
  {| requests := S (requests st);
     files := files st;
     trace := trace st ++ [EvSleep 1; EvGet url] |}.

(** The state after calls of [get_pg] on the links [urls], in order. *)
Fixpoint requested_all (urls : list value) (st : state) : state :=
  match urls with
  | [] => st
  | url :: urls' => requested_all urls' (requested url st)
  end.

(** A request that fails: [session.get] raises, the status is not a
    success, the body is not JSON, or the object has no readable [next]. *)
Inductive failure : response -> Prop :=
| failure_connection : failure ConnFail
| failure_status body : failure (Resp false body)
| failure_body : failure (Resp true None)
| failure_next o e : (Ok o).["next"]%py = Raise e -> failure (Resp true (Some o)).

(** [served w i url urls entries]: from its [i]-th request on, the
    service is asked the links [urls] one after the other, [url] first.  A
    link whose request fails is asked again; a page that arrives adds its
    results to [entries] and its [next] is the link asked after it; the
    last page has a null [next]. *)
Inductive served (w : world) : nat -> value -> list value -> list value -> Prop :=
| served_end i : served w i VNone [] []
| served_page i url obj results next urls entries :
    url <> VNone ->
    session_get w i url = Resp true (Some obj) ->
    (Ok obj).["results"]%py = Ok (VList results) ->
    (Ok obj).["next"]%py = Ok next ->
    served w (S i) next urls entries ->
    served w i url (url :: urls) (results ++ entries)
| served_again i url urls entries :
    url <> VNone ->
    failure (session_get w i url) ->
    served w (S i) url urls entries ->
    served w i url (url :: urls) entries.

(** [preserves R m]: running [m] takes a state to one related to it by
    [R], whatever the outcome. *)
Definition preserves {A} (R : state -> state -> Prop) (m : M A) : Prop :=
  forall st, R st (snd (m st)).

(** The trace only grows, by events that satisfy [ok]. *)
Definition extends (ok : event -> Prop) (st st' : state) : Prop :=
  exists evs, trace st' = trace st ++ evs /\ Forall ok evs.

(** A pickled list found in a file was there before, or satisfies
    [good]. *)
Definition writes (good : list Protein -> Prop) (st st' : state) : Prop :=
  forall path ps,
    files st' !! path = Some (Pickled ps) ->
    files st !! path = Some (Pickled ps) \/ good ps.

(** The events a run of [main] may record. *)
Inductive main_event (w : world) (tax_id : Z) (query_dom_id save_to_dir : string)
    : event -> Prop :=
| me_taxa : main_event w tax_id query_dom_id save_to_dir (EvTaxa tax_id)
| me_exists :
    main_event w tax_id query_dom_id save_to_dir
      (EvExists (cache_path tax_id query_dom_id))
| me_load :
    main_event w tax_id query_dom_id save_to_dir
      (EvLoad (cache_path tax_id query_dom_id))
| me_call f : main_event w tax_id query_dom_id save_to_dir (EvCall f)
| me_sleep : main_event w tax_id query_dom_id save_to_dir (EvSleep 1)
| me_get url : main_event w tax_id query_dom_id save_to_dir (EvGet url)
| me_bar n total : main_event w tax_id query_dom_id save_to_dir (EvBar n total)
| me_dump ps descendents :
    descendant_taxa w tax_id = Ok descendents ->
    Forall (fun p => prot_tax p ∈ descendents) ps ->
    main_event w tax_id query_dom_id save_to_dir
      (EvDump (cache_path tax_id query_dom_id) ps)
| me_render t :
    main_event w tax_id query_dom_id save_to_dir
      (EvRender (render_path save_to_dir query_dom_id tax_id) t)
| me_show : main_event w tax_id query_dom_id save_to_dir (EvShow query_dom_id)
| me_finished :
    main_event w tax_id query_dom_id save_to_dir (EvPrint "Finished script.").

(** The events of the fetch and filter stages. *)
Definition fetch_or_filter (e : event) : bool :=
  match e with
  | EvSleep _ | EvGet _ | EvBar _ _ => true
  | EvCall f => String.eqb f "get_query_from_interpro" || String.eqb f "process_interpro_obj"
  | _ => false
  end.

Definition printed (evs : list event) : list string :=
  omap (fun e => match e with EvPrint s => Some s | _ => None end) evs.

Definition calls (evs : list event) : list string :=
  omap (fun e => match e with EvCall f => Some f | _ => None end) evs.

Definition gets (evs : list event) : list value :=
  omap (fun e => match e with EvGet url => Some url | _ => None end) evs.

Definition rendered (evs : list event) : list string :=
  omap (fun e => match e with EvRender p _ => Some p | _ => None end) evs.

Definition dumped (evs : list event) : list (string * list Protein) :=
  omap (fun e => match e with EvDump p ps => Some (p, ps) | _ => None end) evs.

Definition file_names (evs : list event) : list string :=
  omap (fun e => match e with
                 | EvExists p | EvLoad p | EvDump p _ => Some p
                 | _ => None
                 end) evs.

Definition not_render (e : event) : Prop :=
  match e with
  | EvRender _ _ => False
  | _ => True
  end.

Definition no_fetch_no_filter (e : event) : Prop := fetch_or_filter e = false.

(** Nothing of the fetch and filter stages is recorded and no request is
    counted. *)
Definition quiet (st st' : state) : Prop :=
  extends no_fetch_no_filter st st' /\ requests st' = requests st.

(** A list of records of descendants of the root. *)
Definition descendants_only (w : world) (tax_id : Z) (ps : list Protein) : Prop :=
  exists descendents,
    descendant_taxa w tax_id = Ok descendents /\
    Forall (fun p => prot_tax p ∈ descendents) ps.

(** The file [path] is left as it is. *)
Definition keeps (path : string) (st st' : state) : Prop :=
  files st' !! path = files st !! path.

(** A string without the character [_]. *)
Fixpoint no_underscore (s : string) : Prop :=
  match s with
  | EmptyString => True
  | String c s' => c <> "_"%char /\ no_underscore s'
  end.

(** What [gen_tree] attaches.  The proteins of the node called [name], in
    the order of the list. *)
Definition proteins_of (name : string) (ps : list Protein) : list Protein :=
  filter (fun p => pretty (prot_tax p) = name) ps.

(** The two faces of one protein: its sequence bar, then its accession. *)
Definition protein_faces (queried_dom : string) (p : Protein) : list annotation :=
  match qk_seq queried_dom (prot_len p) (dom_loc p) with
  | Ok (seq, motifs) =>
      [AddFace (SeqMotifFace seq motifs) 1 "aligned";
       AddFace (TextFace (prot_acc p)) 0 "aligned"]
  | Raise _ => []
  end.

(** The two features of a taxon with the accessions [accs]. *)
Definition taxon_features (accs : list value) : list annotation :=
  match accs with
  | [acc] => [AddFeature "num_prots" (VInt 1); AddFeature "prot_acc" acc]
  | _ =>
      match join_comma accs with
      | Ok joined => [AddFeature "num_prots" (VInt (Z.of_nat (length accs)));
                      AddFeature "prot_acc" (VStr joined)]
      | Raise _ => []
      end
  end.

(** Everything a node gets from its proteins [group]: the faces of each
    protein, then the features of the taxon; nothing without proteins. *)
Definition taxon_annotations (queried_dom : string) (group : list Protein)
    : list annotation :=
  match group with
  | [] => []
  | _ => flat_map (protein_faces queried_dom) group
         ++ taxon_features (map prot_acc group)
  end.

(** [t'] is [t] with [extra name] appended to each node [name]. *)
Definition appended (extra : string -> list annotation) (t t' : tree) : Prop :=
  forall name, t' !! name = (fun node => node ++ extra name) <$> t !! name.

(** The features the second loop of [gen_tree] gives to the node [name]
    for the entries [d] of [dict_tax_w_prot]. *)
Definition features_for (name : string) (d : list (Z * list value)) : list annotation :=
  flat_map (fun entry => if decide (pretty (fst entry) = name)
                         then taxon_features (snd entry) else []) d.

(** [dict_tax_w_prot[k]], when [k] is a key. *)
Fixpoint dict_find (d : list (Z * list value)) (k : Z) : option (list value) :=
  match d with
  | [] => None
  | (k', accs) :: d' => if (k' =? k)%Z then Some accs else dict_find d' k
  end.

(** [dict_tax_w_prot] after the first loop of [gen_tree]. *)
Definition group_accs (d : list (Z * list value)) (ps : list Protein)
    : list (Z * list value) :=
  foldl (fun d p => record_acc d (prot_tax p) (prot_acc p)) d ps.

(** The accessions of the proteins of the taxon [k], in order. *)
Definition accs_of (k : Z) (ps : list Protein) : list value :=
  map prot_acc (filter (fun p => prot_tax p = k) ps).

(** A length that ["-" * length] accepts. *)
Definition is_count (v : value) : Prop :=
  match v with
  | VInt _ | VBool _ => True
  | _ => False
  end.

Definition is_str (v : value) : Prop :=
  match v with
  | VStr _ => True
  | _ => False
  end.

(** The accessions a taxon may have: one of any kind, or strings only. *)
Definition joinable (accs : list value) : Prop :=
  match accs with
  | [_] => True
  | _ => Forall is_str accs
  end.

(** ete3 accepts the sequence bar of the protein [p]. *)
Definition bar_accepted (w : world) (queried_dom : string) (p : Protein) : Prop :=
  exists seq motifs,
    qk_seq queried_dom (prot_len p) (dom_loc p) = Ok (seq, motifs) /\
    seq_motif_face w seq motifs = Ok tt.

(** ** Sample data *)

(** A record shaped like the items of the API's [results]. *)
Definition api_record (accession : string) (length : Z) (taxId : string)
    (fragments : list (Z * Z)) : value :=
  VDict
    [("metadata",
      VDict [("accession", VStr accession);
             ("length", VInt length);
             ("source_organism", VDict [("taxId", VStr taxId)])]);
     ("entries",
      VList
        [VDict
           [("entry_protein_locations",
             VList
               [VDict
                  [("fragments",
                    VList
                      (map (fun se =>
                              VDict [("start", VInt (fst se)); ("end", VInt (snd se))])
                           fragments))]])]])].

Definition rec_a : value := api_record "A0A000" 320 "314230" [(10, 120)]%Z.
Definition rec_b : value := api_record "B1B111" 95 "9606" [(1, 40); (50, 90)]%Z.
Definition rec_c : value := api_record "C2C222" 710 "214688" [(300, 450)]%Z.

Definition prot_of (accession : string) (length tax : Z) (fragments : list (Z * Z))
    : Protein :=
  {| prot_acc := VStr accession; prot_len := VInt length; prot_tax := tax;
     dom_loc := map (fun se => (VInt (fst se), VInt (snd se))) fragments |}.

Definition prot_a : Protein := prot_of "A0A000" 320 314230 [(10, 120)]%Z.
Definition prot_b : Protein := prot_of "B1B111" 95 9606 [(1, 40); (50, 90)]%Z.
Definition prot_c : Protein := prot_of "C2C222" 710 214688 [(300, 450)]%Z.

(** [rec_b] without its [length]. *)
Definition rec_b_no_length : value :=
  VDict
    [("metadata",
      VDict [("accession", VStr "B1B111");
             ("source_organism", VDict [("taxId", VStr "9606")])]);
     ("entries",
      VList [VDict [("entry_protein_locations",
                     VList [VDict [("fragments", VList [])]])]])].

(** Some descendants of the Planctomycetes. *)
Definition planctomycetes : gset Z := {[ 314230; 214688; 344747; 521674 ]}%Z.

(** A result page. *)
Definition api_page (count : Z) (results : list value) (next : value) : value :=
  VDict [("count", VInt count); ("next", next); ("results", VList results)].

(** A service with fixed pages by address. *)
Definition serve (pages : list (string * value)) (url : value) : response :=
  match url with
  | VStr u =>
      match Py.dict_get pages u with
      | Some obj => Resp true (Some obj)
      | None => Resp false None
      end
  | _ => ConnFail
  end.

Definition ipr1 : string := "IPR000001".
Definition ipr1_url : string := base_url ipr1.
Definition ipr1_next : string := ipr1_url +:+ "/?cursor=source%3As%3Ab1b111".

Definition taxonomy_tree : tree :=
  list_to_map [("314230", []); ("214688", []); ("344747", []); ("521674", [])].

(** ete3 refuses a bar with neither sequence nor motif. *)
Definition bar_or_motif (seq : string) (motifs : list value) : result unit :=
  match seq, motifs with
  | EmptyString, [] => Raise ValueError
  | _, _ => Ok tt
  end.

Definition world_of (tqdm : bool) (get : nat -> value -> response) : world :=
  {| version_info := (3, 11)%Z;
     import_dataclasses := Ok tt;
     import_requests := Ok tt;
     ete3_installed := true;
     tqdm_installed := tqdm;
     ncbi_taxa := Ok tt;
     session_get := get;
     descendant_taxa := fun _ => Ok planctomycetes;
     descendant_tree := fun _ => Ok taxonomy_tree;
     seq_motif_face := bar_or_motif;
     tree_render := fun _ _ => (Ok tt, true);
     tree_show := fun _ _ => Ok tt;
     file_write := fun _ _ => Written |}.

(** One page holds everything. *)
Definition one_page_world : world :=
  world_of true (fun _ => serve [(ipr1_url, api_page 3 [rec_a; rec_b; rec_c] VNone)]).

(** Two pages. *)
Definition two_page_world : world :=
  world_of true
    (fun _ => serve [(ipr1_url, api_page 3 [rec_a; rec_b] (VStr ipr1_next));
                     (ipr1_next, api_page 3 [rec_c] VNone)]).

(** The first page arrives, then the network is down for good. *)
Definition down_after_first_world : world :=
  world_of true
    (fun i url =>
       match i with
       | O => serve [(ipr1_url, api_page 3 [rec_a; rec_b] (VStr ipr1_next))] url
       | S _ => ConnFail
       end).

(** Two pages, and the first request for the second one gets no
    connection. *)
Definition hiccup_world : world :=
  world_of true
    (fun i url =>
       match i with
       | 1 => ConnFail
       | _ => serve [(ipr1_url, api_page 3 [rec_a; rec_b] (VStr ipr1_next));
                     (ipr1_next, api_page 3 [rec_c] VNone)] url
       end).

(** An entry without any protein. *)
Definition empty_page_world : world :=
  world_of true (fun _ => serve [(ipr1_url, api_page 0 [] VNone)]).

(** [one_page_world] on a machine without tqdm. *)
Definition no_tqdm_world : world :=
  world_of false (fun _ => serve [(ipr1_url, api_page 3 [rec_a; rec_b; rec_c] VNone)]).

(** A second page that arrives without its [results]. *)
Definition no_results_world : world :=
  world_of true
    (fun _ => serve [(ipr1_url, api_page 3 [rec_a; rec_b] (VStr ipr1_next));
                     (ipr1_next, VDict [("count", VInt 3); ("next", VNone)])]).

(** The service answers every request with a server error. *)
Definition server_error_world : world :=
  world_of true (fun _ _ => Resp false None).

(** [one_page_world] under another interpreter. *)
Definition world_of_version (version : Z * Z) : world :=
  {| version_info := version;
     import_dataclasses := Ok tt;
     import_requests := Ok tt;
     ete3_installed := true;
     tqdm_installed := true;
     ncbi_taxa := Ok tt;
     session_get := session_get one_page_world;
     descendant_taxa := descendant_taxa one_page_world;
     descendant_tree := descendant_tree one_page_world;
     seq_motif_face := bar_or_motif;
     tree_render := tree_render one_page_world;
     tree_show := tree_show one_page_world;
     file_write := file_write one_page_world |}.

(** [two_page_world] in a working directory that cannot be written. *)
Definition read_only_world : world :=
  {| version_info := (3, 11)%Z;
     import_dataclasses := Ok tt;
     import_requests := Ok tt;
     ete3_installed := true;
     tqdm_installed := true;
     ncbi_taxa := Ok tt;
     session_get := session_get two_page_world;
     descendant_taxa := descendant_taxa two_page_world;
     descendant_tree := descendant_tree two_page_world;
     seq_motif_face := bar_or_motif;
     tree_render := fun _ _ => (Ok tt, false);
     tree_show := fun _ _ => Ok tt;
     file_write := fun _ _ => NotOpened PermissionError |}.

(** A second protein of the taxon of [prot_a], and a tree annotated with
    three proteins. *)
Definition prot_a2 : Protein := prot_of "A9A999" 12 314230 [(2, 9)]%Z.

Definition annotated_tree : tree :=
  match gen_tree one_page_world [prot_a; prot_c; prot_a2] ipr1 taxonomy_tree with
  | Ok t => t
  | Raise _ => ∅
  end.

(** Proteins as a cache written by something else could hold them: a
    length that is null, an accession that is null. *)
Definition prot_a_no_length : Protein :=
  {| prot_acc := VStr "A0A000"; prot_len := VNone; prot_tax := 314230; dom_loc := [] |}.

Definition prot_a_null_acc : Protein :=
  {| prot_acc := VNone; prot_len := VInt 320; prot_tax := 314230; dom_loc := [] |}.

(** [rec_a] with a second location in its first entry and a second
    entry. *)
Definition rec_a_more : value :=
  VDict
    [("metadata",
      VDict [("accession", VStr "A0A000");
             ("length", VInt 320);
             ("source_organism", VDict [("taxId", VStr "314230")])]);
     ("entries",
      VList
        [VDict
           [("entry_protein_locations",
             VList
               [VDict [("fragments",
                        VList [VDict [("start", VInt 10); ("end", VInt 120)]])];
                VDict [("fragments",
                        VList [VDict [("start", VInt 200); ("end", VInt 260)]])]])];
         VDict [("entry_protein_locations", VList [])]])].

(** * Properties *)

(** ** The builtins on examples *)

Example int_examples :
  map Py.int [VStr "9606"; VStr " -5 "; VStr "1_000"; VStr "007"; VStr "1__0";
              VStr "- 5"; VStr EmptyString; VStr "5.0"; VBool true; VNone;
              VFloat (S754_finite true 3 (-1))]
  = [Ok 9606%Z; Ok (-5)%Z; Ok 1000%Z; Ok 7%Z; Raise ValueError;
     Raise ValueError; Raise ValueError; Raise ValueError; Ok 1%Z; Raise TypeError;
     Ok (-1)%Z].
Proof. vm_compute. reflexivity. Qed.

(** The limit on the digits: 4300 digits are read and one more is
    refused; leading zeros count, the sign does not.  Hence a too long
    first argument is refused by the command line, and a too long id by the
    filter. *)
Example int_digit_limit :
  let ones n := string_of_list_ascii (repeat "1"%char n) in
  Py.int (VStr (ones 4300)) = Ok ((10 ^ 4300 - 1) / 9)%Z /\
  Py.int (VStr (ones 4301)) = Raise ValueError /\
  Py.int (VStr (string_of_list_ascii (repeat "0"%char 4301))) = Raise ValueError /\
  Py.int (VStr ("-" +:+ ones 4300)) = Ok (- ((10 ^ 4300 - 1) / 9))%Z /\
  parse_args ["s.py"; ones 5000; "IPR000001"; "out/"] = Raise TypeError /\
  process_interpro_obj (VList [api_record "A0A000" 320 (ones 5000) [(10, 120)%Z]])
    planctomycetes
  = Raise ValueError.
Proof. vm_compute. repeat split; reflexivity. Qed.

Example round_truediv_examples :
  map (fun ab => (q <- Py.truediv (fst ab) (snd ab) ;; Py.round q)%py)
      [(5, 2); (7, 2); (-5, 2); (1, 2); (40, 20); (41, 20); (3, 0); (2 ^ 1024, 1)]%Z
  = [Ok 2; Ok 4; Ok (-2); Ok 0; Ok 2; Ok 2; Raise ZeroDivisionError; Raise OverflowError]%Z.
Proof. vm_compute. reflexivity. Qed.

(** ** The result monad *)

Lemma rbind_Ok {A B} (r : result A) (k : A -> result B) (b : B) :
  rbind r k = Ok b <-> exists a, r = Ok a /\ k a = Ok b.
Proof.
  destruct r as [a|e]; simpl; split.
  - intros H. exists a. auto.
  - intros (a' & Ha & H). congruence.
  - discriminate.
  - intros (a' & Ha & _). discriminate.
Qed.

Lemma mapM_Ok {A B} (f : A -> result B) (l : list A) (ys : list B) :
  mapM f l = Ok ys <-> Forall2 (fun x y => f x = Ok y) l ys.
Proof.
  revert ys. induction l as [|x l IH]; intros ys; simpl.
  - split.
    + intros [= <-]. constructor.
    + intros H. inversion H. reflexivity.
  - rewrite rbind_Ok. split.
    + intros (y & Hy & H). apply rbind_Ok in H as (ys' & Hys & [= <-]).
      constructor; [exact Hy | apply IH, Hys].
    + intros H. inversion H as [|x' y l' ys' Hy Hys]; subst.
      exists y. split; [exact Hy|].
      apply rbind_Ok. exists ys'. split; [apply IH, Hys | reflexivity].
Qed.

Lemma foldM_app {A B} (f : A -> B -> result A) (a : A) (l1 l2 : list B) :
  foldM f a (l1 ++ l2) = rbind (foldM f a l1) (fun a' => foldM f a' l2).
Proof.
  revert a. induction l1 as [|x l1 IH]; intros a; simpl; [reflexivity|].
  destruct (f a x) as [a'|e]; simpl; [apply IH | reflexivity].
Qed.

(** ** The filter stage *)

Lemma location_Ok (x : value) (se : value * value) :
  location x = Ok se <->
  (Ok x).["start"]%py = Ok (fst se) /\ (Ok x).["end"]%py = Ok (snd se).
Proof.
  unfold location. rewrite rbind_Ok. split.
  - intros (s & Hs & H). apply rbind_Ok in H as (e & He & [= <-]). auto.
  - intros [Hs He]. exists (fst se). split; [exact Hs|].
    apply rbind_Ok. exists (snd se). split; [exact He|]. destruct se; reflexivity.
Qed.

(** [extract] succeeds exactly on the raw records, and returns their
    fields. *)
Lemma extract_Ok (r acc len : value) (locs : list (value * value)) (t : Z) :
  extract r = Ok (acc, locs, len, t) <->
  raw_record r {| prot_acc := acc; prot_len := len; prot_tax := t; dom_loc := locs |}.
Proof.
  unfold extract. split.
  - intros H.
    apply rbind_Ok in H as (acc' & Hacc & H).
    apply rbind_Ok in H as (fr & Hfr & H).
    apply rbind_Ok in H as (xs & Hxs & H).
    apply rbind_Ok in H as (locs' & Hlocs & H).
    apply rbind_Ok in H as (len' & Hlen & H).
    apply rbind_Ok in H as (tid & Htid & H).
    apply rbind_Ok in H as (t' & Ht & [= <- <- <- <-]).
    constructor; simpl.
    + exact Hacc.
    + exact Hlen.
    + exists tid. auto.
    + exists fr, xs. repeat split; [exact Hfr | exact Hxs |].
      apply mapM_Ok in Hlocs.
      eapply Forall2_impl; [exact Hlocs|]. intros x se. apply location_Ok.
  - intros [Hacc Hlen (tid & Htid & Ht) (fr & xs & Hfr & Hxs & Hlocs)]; simpl in *.
    rewrite Hacc; simpl. rewrite Hfr; simpl. rewrite Hxs; simpl.
    assert (mapM location xs = Ok locs) as ->.
    { apply mapM_Ok. eapply Forall2_impl; [exact Hlocs|].
      intros x se. apply location_Ok. }
    simpl. rewrite Hlen; simpl. rewrite Htid; simpl. rewrite Ht; simpl. reflexivity.
Qed.

Lemma process_record_raw (keep : gset Z) (out : list Protein) (r : value) (p : Protein) :
  raw_record r p ->
  process_record keep out r = Ok (if decide (prot_tax p ∈ keep) then out ++ [p] else out).
Proof.
  destruct p as [acc len t locs]. intros H. apply extract_Ok in H.
  unfold process_record. rewrite H. simpl. destruct (decide (t ∈ keep)); reflexivity.
Qed.

Lemma process_record_Ok (keep : gset Z) (out out' : list Protein) (r : value) :
  process_record keep out r = Ok out' ->
  exists p, raw_record r p /\
            out' = if decide (prot_tax p ∈ keep) then out ++ [p] else out.
Proof.
  unfold process_record. intros H. apply rbind_Ok in H as ([[[acc locs] len] t] & He & H).
  exists {| prot_acc := acc; prot_len := len; prot_tax := t; dom_loc := locs |}.
  split; [apply extract_Ok, He|]. simpl.
  destruct (decide (t ∈ keep)); congruence.
Qed.

Lemma process_record_Raise (keep : gset Z) (out : list Protein) (r : value) (e : exn) :
  extract r = Raise e -> process_record keep out r = Raise e.
Proof. intros H. unfold process_record. rewrite H. reflexivity. Qed.

(** A record stands for one compact record only. *)
Lemma raw_record_functional (r : value) (p p' : Protein) :
  raw_record r p -> raw_record r p' -> p = p'.
Proof.
  destruct p as [acc len t locs], p' as [acc' len' t' locs'].
  intros H H'. apply extract_Ok in H, H'. congruence.
Qed.

Lemma fold_process_raw (keep : gset Z) (l : list value) (ps out : list Protein) :
  Forall2 raw_record l ps ->
  foldM (process_record keep) out l
  = Ok (out ++ filter (fun p => prot_tax p ∈ keep) ps).
Proof.
  intros H. revert out. induction H as [|r p l ps Hr _ IH]; intros out; simpl.
  - rewrite app_nil_r. reflexivity.
  - rewrite (process_record_raw keep out r p Hr). simpl.
    rewrite IH. destruct (decide (prot_tax p ∈ keep)) as [Hin|Hout].
    + rewrite filter_cons_True by exact Hin. rewrite <- app_assoc. reflexivity.
    + rewrite filter_cons_False by exact Hout. reflexivity.
Qed.

Lemma fold_process_Ok (keep : gset Z) (l : list value) (out out' : list Protein) :
  foldM (process_record keep) out l = Ok out' ->
  exists ps, Forall2 raw_record l ps /\
             out' = out ++ filter (fun p => prot_tax p ∈ keep) ps.
Proof.
  revert out. induction l as [|r l IH]; intros out; simpl.
  - intros [= <-]. exists []. split; [constructor|]. rewrite app_nil_r. reflexivity.
  - intros H. apply rbind_Ok in H as (mid & Hr & H).
    apply process_record_Ok in Hr as (p & Hp & ->).
    apply IH in H as (ps & Hps & ->).
    exists (p :: ps). split; [constructor; assumption|].
    destruct (decide (prot_tax p ∈ keep)) as [Hin|Hout].
    + rewrite filter_cons_True by exact Hin. rewrite <- app_assoc. reflexivity.
    + rewrite filter_cons_False by exact Hout. reflexivity.
Qed.

Lemma fold_process_Raise (keep : gset Z) (pre post : list value) (r : value)
    (out : list Protein) (e : exn) :
  extract r = Raise e ->
  exists e', foldM (process_record keep) out (pre ++ r :: post) = Raise e'.
Proof.
  intros He. rewrite foldM_app.
  destruct (foldM (process_record keep) out pre) as [mid|e']; simpl.
  - exists e. rewrite (process_record_Raise keep mid r e He). reflexivity.
  - exists e'. reflexivity.
Qed.

(** C1. Filtering: on a list of raw API records, [process_interpro_obj]
    returns exactly the records whose [metadata.source_organism.taxId],
    read as an integer, belongs to the set of acceptable ids; each is
    reshaped into a [Protein] with the accession and the length of the
    metadata copied as they are and the (start, end) pairs of the fragments
    of the first location of the first entry; the other records contribute
    nothing. *)
Theorem process_interpro_obj_filter (l : list value) (ps : list Protein)
    (tax_to_keep : gset Z) :
  Forall2 raw_record l ps ->
  process_interpro_obj (VList l) tax_to_keep
  = Ok (filter (fun p => prot_tax p ∈ tax_to_keep) ps).
Proof.
  intros H. unfold process_interpro_obj. simpl.
  rewrite (fold_process_raw tax_to_keep l ps [] H). reflexivity.
Qed.

Lemma sample_raw_records :
  Forall2 raw_record [rec_a; rec_b; rec_c] [prot_a; prot_b; prot_c].
Proof.
  repeat constructor; apply extract_Ok; vm_compute; reflexivity.
Qed.

Lemma process_interpro_obj_filter_witness :
  Forall2 raw_record [rec_a; rec_b; rec_c] [prot_a; prot_b; prot_c] /\
  process_interpro_obj (VList [rec_a; rec_b; rec_c]) planctomycetes
  = Ok (filter (fun p => prot_tax p ∈ planctomycetes) [prot_a; prot_b; prot_c]).
Proof.
  split; [exact sample_raw_records|].
  apply (process_interpro_obj_filter [rec_a; rec_b; rec_c] [prot_a; prot_b; prot_c]).
  exact sample_raw_records.
Defined.

Example process_interpro_obj_sample :
  process_interpro_obj (VList [rec_a; rec_b; rec_c]) planctomycetes = Ok [prot_a; prot_c].
Proof. vm_compute. reflexivity. Qed.

(** C9. Order: the output of [process_interpro_obj] lists the retained
    records in the order of the input; it is obtained from the reshaped
    input by deleting records, so no record is repeated and an input record
    gives at most one output record. *)
Theorem process_interpro_obj_order (l : list value) (tax_to_keep : gset Z)
    (out : list Protein) :
  process_interpro_obj (VList l) tax_to_keep = Ok out ->
  exists ps,
    Forall2 raw_record l ps /\
    out = filter (fun p => prot_tax p ∈ tax_to_keep) ps /\
    sublist out ps /\
    length out <= length l.
Proof.
  unfold process_interpro_obj. simpl. intros H.
  apply fold_process_Ok in H as (ps & Hps & ->). simpl.
  exists ps. repeat split.
  - exact Hps.
  - apply sublist_filter.
  - rewrite (Forall2_length _ _ _ Hps). apply length_filter.
Qed.

Lemma process_interpro_obj_order_witness :
  exists ps,
    Forall2 raw_record [rec_c; rec_b; rec_a] ps /\
    [prot_c; prot_a] = filter (fun p => prot_tax p ∈ planctomycetes) ps /\
    sublist [prot_c; prot_a] ps /\
    length [prot_c; prot_a] <= length [rec_c; rec_b; rec_a].
Proof.
  apply (process_interpro_obj_order [rec_c; rec_b; rec_a] planctomycetes).
  vm_compute. reflexivity.
Defined.

(** ** The fetch stage *)

Lemma requested_all_requests (urls : list value) (st : state) :
  requests (requested_all urls st) = requests st + length urls.
Proof.
  revert st. induction urls as [|u urls IH]; intros st; simpl; [lia|].
  rewrite IH. simpl. lia.
Qed.

Lemma requested_all_files (urls : list value) (st : state) :
  files (requested_all urls st) = files st.
Proof.
  revert st. induction urls as [|u urls IH]; intros st; simpl; [reflexivity|].
  rewrite IH. reflexivity.
Qed.

Lemma requested_all_trace (urls : list value) (st : state) :
  trace (requested_all urls st)
  = trace st ++ flat_map (fun url => [EvSleep 1; EvGet url]) urls.
Proof.
  revert st. induction urls as [|u urls IH]; intros st; simpl.
  - rewrite app_nil_r. reflexivity.
  - rewrite IH. simpl. rewrite <- app_assoc. reflexivity.
Qed.

(** [get_pg] case by case. *)
Lemma get_pg_run (w : world) (url : value) (st : state) :
  get_pg w url st =
  match session_get w (requests st) url with
  | ConnFail => (Raised UnboundLocalError, requested url st)
  | Resp false _ => (Done None, requested url st)
  | Resp true None => (Raised JSONDecodeError, requested url st)
  | Resp true (Some o) =>
      match (Ok o).["next"]%py with
      | Ok next_page => (Done (Some (o, next_page)), requested url st)
      | Raise e => (Raised e, requested url st)
      end
  end.
Proof.
  unfold get_pg, bind, emit, requested. simpl. rewrite <- app_assoc. simpl.
  destruct (session_get w (requests st) url) as [|[|] [o|]]; try reflexivity.
  unfold lift, ret, raise, subscript. simpl.
  destruct (Py.getitem o (VStr "next")); reflexivity.
Qed.

(** Line 71 when the request fails: an exception, whatever the failure. *)
Lemma get_pg_unpack_failure (w : world) (url : value) (st : state) :
  failure (session_get w (requests st) url) ->
  exists e,
    bind (get_pg w url) (fun r => lift (unpack r)) st = (Raised e, requested url st).
Proof.
  intros H. unfold bind. rewrite get_pg_run.
  inversion H as [|body Hr| |o e He Hr].
  - eexists. reflexivity.
  - eexists. reflexivity.
  - eexists. reflexivity.
  - rewrite He. eexists. reflexivity.
Qed.

(** Line 71 when the page arrives. *)
Lemma get_pg_unpack_page (w : world) (url obj next : value) (st : state) :
  session_get w (requests st) url = Resp true (Some obj) ->
  (Ok obj).["next"]%py = Ok next ->
  bind (get_pg w url) (fun r => lift (unpack r)) st
  = (Done (obj, next), requested url st).
Proof.
  intros Hr Hn. unfold bind. rewrite get_pg_run, Hr, Hn. reflexivity.
Qed.

Lemma page_loop_retry (w : world) (fuel : nat) (results url : value) (pbar : progress)
    (st : state) :
  url <> VNone ->
  failure (session_get w (requests st) url) ->
  page_loop w (S fuel) results url pbar st
  = page_loop w fuel results url pbar (requested url st).
Proof.
  intros Hurl Hfail.
  destruct (get_pg_unpack_failure w url st Hfail) as (e & He).
  destruct url; try congruence; simpl; unfold try_except_else; rewrite He; reflexivity.
Qed.

Lemma page_loop_down (w : world) (fuel : nat) (results url : value) (pbar : progress)
    (st : state) :
  url <> VNone ->
  (forall i, requests st <= i -> failure (session_get w i url)) ->
  page_loop w fuel results url pbar st
  = (OutOfFuel, requested_all (replicate fuel url) st).
Proof.
  intros Hurl. revert st. induction fuel as [|fuel IH]; intros st Hdown.
  - destruct url; try congruence; reflexivity.
  - rewrite page_loop_retry; [|exact Hurl|apply Hdown; lia].
    rewrite IH; [reflexivity|].
    intros i Hi. apply Hdown. simpl in Hi. lia.
Qed.

(** C3. Retry without end: in the page loop (every request after the
    first), a failed request is caught and the same link is asked again,
    with the results gathered so far; each attempt sleeps the same one
    second and prints nothing, and nothing bounds the number of attempts:
    while the link keeps failing the loop neither returns nor raises,
    whatever the fuel.  When [session.get] itself raises, the message of
    the [except] branch reads the unbound [r]: [get_pg] raises
    [UnboundLocalError] without printing, which the loop swallows like any
    other failure. *)
Theorem page_loop_retries_forever (w : world) (results url : value) (pbar : progress)
    (st : state) :
  url <> VNone ->
  (failure (session_get w (requests st) url) ->
   forall fuel,
     page_loop w (S fuel) results url pbar st
     = page_loop w fuel results url pbar (requested url st)) /\
  ((forall i, requests st <= i -> failure (session_get w i url)) ->
   forall fuel,
     let r := page_loop w fuel results url pbar st in
     fst r = OutOfFuel /\
     requests (snd r) = requests st + fuel /\
     files (snd r) = files st /\
     trace (snd r) = trace st ++ concat (replicate fuel [EvSleep 1; EvGet url])) /\
  (session_get w (requests st) url = ConnFail ->
   get_pg w url st = (Raised UnboundLocalError, requested url st)).
Proof.
  intros Hurl. split; [|split].
  - intros Hfail fuel. apply page_loop_retry; assumption.
  - intros Hdown fuel. simpl.
    rewrite (page_loop_down w fuel results url pbar st Hurl Hdown).
    simpl. rewrite requested_all_requests, requested_all_files, requested_all_trace.
    rewrite length_replicate. repeat split.
    f_equal. clear. induction fuel as [|fuel IH]; simpl; [reflexivity|].
    rewrite IH. reflexivity.
  - intros Hr. rewrite get_pg_run, Hr. reflexivity.
Qed.

Lemma page_loop_retries_forever_witness :
  let st := requested (VStr ipr1_url) (initial_state ∅) in
  let pbar := {| bar_n := 1; bar_total := 2; bar_disable := true |} in
  let results := VList [rec_a; rec_b] in
  (forall fuel,
     page_loop down_after_first_world (S fuel) results (VStr ipr1_next) pbar st
     = page_loop down_after_first_world fuel results (VStr ipr1_next) pbar
         (requested (VStr ipr1_next) st)) /\
  (let r := page_loop down_after_first_world 7 results (VStr ipr1_next) pbar st in
   fst r = OutOfFuel /\
   requests (snd r) = 1 + 7 /\
   files (snd r) = ∅ /\
   trace (snd r)
   = [EvSleep 1; EvGet (VStr ipr1_url)]
     ++ concat (replicate 7 [EvSleep 1; EvGet (VStr ipr1_next)])) /\
  get_pg down_after_first_world (VStr ipr1_next) st
  = (Raised UnboundLocalError, requested (VStr ipr1_next) st).
Proof.
  assert (VStr ipr1_next <> VNone) as Hurl by discriminate.
  assert (forall i, 1 <= i ->
            failure (session_get down_after_first_world i (VStr ipr1_next))) as Hdown.
  { intros [|i] Hi; [lia|]. simpl. constructor. }
  destruct (page_loop_retries_forever down_after_first_world
              (VList [rec_a; rec_b]) (VStr ipr1_next)
              {| bar_n := 1; bar_total := 2; bar_disable := true |}
              (requested (VStr ipr1_url) (initial_state ∅)) Hurl)
    as (Hstep & Hloop & Hprint).
  split; [|split].
  - apply Hstep. apply Hdown. simpl. lia.
  - apply (Hloop Hdown 7).
  - apply Hprint. reflexivity.
Defined.

(** The same seen from [get_query_from_interpro]: once the first page is
    in and its link fails for good, no fuel is enough. *)
Corollary get_query_from_interpro_hangs (w : world) (hit_id : string) (st : state)
    (obj url : value) (total : Z) :
  tqdm_installed w = true ->
  session_get w (requests st) (VStr (base_url hit_id)) = Resp true (Some obj) ->
  (Ok obj).["next"]%py = Ok url ->
  url <> VNone ->
  page_estimate obj = Ok total ->
  (forall i, requests st < i -> failure (session_get w i url)) ->
  forall fuel,
    get_query_from_interpro w fuel hit_id st
    = (OutOfFuel, requested_all (VStr (base_url hit_id) :: replicate fuel url) st).
Proof.
  intros Htqdm Hr Hn Hurl Htotal Hdown fuel.
  unfold get_query_from_interpro.
  unfold bind at 1. unfold bind at 1.
  rewrite get_pg_run, Hr, Hn. simpl.
  unfold bind at 1. rewrite Htotal. simpl.
  unfold bind at 1. unfold tqdm, TQDM_ON. rewrite Htqdm. simpl.
  assert (exists results, (Ok obj).["results"]%py = Ok results) as (results & Hres).
  { unfold page_estimate in Htotal.
    apply rbind_Ok in Htotal as (c & _ & H).
    apply rbind_Ok in H as (n & _ & H).
    apply rbind_Ok in H as (results & Hres & _). eauto. }
  unfold bind at 1. rewrite Hres. simpl.
  apply page_loop_down; [exact Hurl|].
  intros i Hi. apply Hdown. simpl in Hi. lia.
Qed.

Lemma foldM_append (acc l : list value) :
  foldM Py.append (VList acc) l = Ok (VList (acc ++ l)).
Proof.
  revert acc. induction l as [|x l IH]; intros acc; simpl.
  - rewrite app_nil_r. reflexivity.
  - rewrite IH, <- app_assoc. reflexivity.
Qed.

Lemma page_loop_page (w : world) (fuel : nat) (acc results : list value)
    (url obj next : value) (pbar : progress) (st : state) :
  url <> VNone ->
  bar_disable pbar = true ->
  session_get w (requests st) url = Resp true (Some obj) ->
  (Ok obj).["results"]%py = Ok (VList results) ->
  (Ok obj).["next"]%py = Ok next ->
  page_loop w (S fuel) (VList acc) url pbar st
  = page_loop w fuel (VList (acc ++ results)) next pbar (requested url st).
Proof.
  intros Hurl Hbar Hr Hres Hnext.
  assert (page_loop w (S fuel) (VList acc) url pbar st
          = try_except_else
              (bind (get_pg w url) (fun r => lift (unpack r)))
              (page_loop w fuel (VList acc) url pbar)
              (fun p =>
                 let '(new_obj, next_page') := p in
                 (new_results <- lift ((Ok new_obj).["results"])%py ;;
                  entries <- lift (Py.iter new_results) ;;
                  results' <- lift (foldM Py.append (VList acc) entries) ;;
                  pbar' <- update pbar 1 ;;
                  page_loop w fuel results' next_page' pbar')%M) st) as ->.
  { destruct url; try congruence; reflexivity. }
  unfold try_except_else. rewrite (get_pg_unpack_page w url obj next st Hr Hnext).
  unfold bind at 1. rewrite Hres. simpl.
  unfold bind at 1. simpl.
  unfold bind at 1. rewrite foldM_append. simpl.
  unfold bind at 1. unfold update. rewrite Hbar. reflexivity.
Qed.

(** The loop on a service that ends up answering: one request per link
    asked, the results appended page after page, and the end at the first
    null [next]. *)
Lemma page_loop_served (w : world) (i : nat) (url : value) (urls entries : list value) :
  served w i url urls entries ->
  forall (fuel : nat) (acc : list value) (pbar : progress) (st : state),
    requests st = i ->
    bar_disable pbar = true ->
    length urls <= fuel ->
    page_loop w fuel (VList acc) url pbar st
    = (Done (VList (acc ++ entries)), requested_all urls st).
Proof.
  induction 1 as [i
                 |i url obj results next urls entries Hurl Hr Hres Hnext _ IH
                 |i url urls entries Hurl Hfail _ IH];
    intros fuel acc pbar st Hi Hbar Hfuel; subst i.
  - simpl. rewrite app_nil_r. destruct fuel; reflexivity.
  - destruct fuel as [|fuel]; [simpl in Hfuel; lia|].
    rewrite (page_loop_page w fuel acc results url obj next pbar st Hurl Hbar Hr Hres Hnext).
    rewrite (IH fuel (acc ++ results) pbar (requested url st)); simpl in *; try lia; auto.
    rewrite <- app_assoc. reflexivity.
  - destruct fuel as [|fuel]; [simpl in Hfuel; lia|].
    rewrite (page_loop_retry w fuel (VList acc) url pbar st Hurl Hfail).
    rewrite (IH fuel acc pbar (requested url st)); simpl in *; try lia; auto.
Qed.

(** The first request and the estimate of line 67, when both go well. *)
Lemma get_query_from_interpro_first_page (w : world) (fuel : nat) (hit_id : string)
    (st : state) (obj results next : value) (total : Z) :
  tqdm_installed w = true ->
  session_get w (requests st) (VStr (base_url hit_id)) = Resp true (Some obj) ->
  (Ok obj).["results"]%py = Ok results ->
  (Ok obj).["next"]%py = Ok next ->
  page_estimate obj = Ok total ->
  get_query_from_interpro w fuel hit_id st
  = page_loop w fuel results next
      {| bar_n := 1; bar_total := total; bar_disable := true |}
      (requested (VStr (base_url hit_id)) st).
Proof.
  intros Htqdm Hr Hres Hn Htotal.
  unfold get_query_from_interpro.
  unfold bind at 1. unfold bind at 1.
  rewrite get_pg_run, Hr, Hn. simpl.
  unfold bind at 1. rewrite Htotal. simpl.
  unfold bind at 1. unfold tqdm, TQDM_ON. rewrite Htqdm. simpl.
  unfold bind at 1. rewrite Hres. reflexivity.
Qed.

(** C6, amended. When the first page arrives, the estimate of line 67 can
    be computed from it (a count that reads as an integer, results that
    are not empty) and tqdm is there: if [next] is null the fetcher returns
    exactly the results of that page after this single request; in general,
    when the pages end up arriving, it asks the [next] link of each
    response, appends the results of each page to those of the first, and
    stops at the first null [next]. *)
Theorem get_query_from_interpro_pages (w : world) (fuel : nat) (hit_id : string)
    (st : state) (obj next : value) (results : list value) (total : Z)
    (urls entries : list value) :
  tqdm_installed w = true ->
  session_get w (requests st) (VStr (base_url hit_id)) = Resp true (Some obj) ->
  (Ok obj).["results"]%py = Ok (VList results) ->
  (Ok obj).["next"]%py = Ok next ->
  page_estimate obj = Ok total ->
  served w (S (requests st)) next urls entries ->
  length urls <= fuel ->
  let r := get_query_from_interpro w fuel hit_id st in
  fst r = Done (VList (results ++ entries)) /\
  requests (snd r) = S (requests st + length urls) /\
  trace (snd r)
  = trace st ++ flat_map (fun url => [EvSleep 1; EvGet url])
                         (VStr (base_url hit_id) :: urls) /\
  (next = VNone -> fst r = Done (VList results) /\ requests (snd r) = S (requests st)).
Proof.
  intros Htqdm Hr Hres Hn Htotal Hs Hfuel. simpl.
  rewrite (get_query_from_interpro_first_page w fuel hit_id st obj (VList results) next total
             Htqdm Hr Hres Hn Htotal).
  rewrite (page_loop_served w (S (requests st)) next urls entries Hs fuel results
             {| bar_n := 1; bar_total := total; bar_disable := true |}
             (requested (VStr (base_url hit_id)) st) eq_refl eq_refl Hfuel). simpl.
  rewrite requested_all_requests, requested_all_trace. simpl.
  split; [reflexivity|]. split; [lia|]. split.
  - rewrite <- app_assoc. reflexivity.
  - intros ->. inversion Hs; subst; try congruence.
    simpl. rewrite app_nil_r. split; [reflexivity | lia].
Qed.

Lemma hiccup_served :
  served hiccup_world 1 (VStr ipr1_next) [VStr ipr1_next; VStr ipr1_next] [rec_c].
Proof.
  apply served_again; [discriminate | constructor |].
  apply (served_page hiccup_world 2 (VStr ipr1_next) (api_page 3 [rec_c] VNone)
           [rec_c] VNone [] []).
  - discriminate.
  - vm_compute. reflexivity.
  - vm_compute. reflexivity.
  - vm_compute. reflexivity.
  - constructor.
Qed.

Lemma get_query_from_interpro_pages_witness :
  let r := get_query_from_interpro hiccup_world 4 ipr1 (initial_state ∅) in
  fst r = Done (VList ([rec_a; rec_b] ++ [rec_c])) /\
  requests (snd r) = S (0 + 2) /\
  trace (snd r)
  = [] ++ flat_map (fun url => [EvSleep 1; EvGet url])
                   [VStr (base_url ipr1); VStr ipr1_next; VStr ipr1_next] /\
  (VStr ipr1_next = VNone -> fst r = Done (VList [rec_a; rec_b]) /\ requests (snd r) = 1).
Proof.
  apply (get_query_from_interpro_pages hiccup_world 4 ipr1 (initial_state ∅)
           (api_page 3 [rec_a; rec_b] (VStr ipr1_next)) (VStr ipr1_next)
           [rec_a; rec_b] 2%Z [VStr ipr1_next; VStr ipr1_next] [rec_c]).
  - reflexivity.
  - vm_compute. reflexivity.
  - vm_compute. reflexivity.
  - vm_compute. reflexivity.
  - vm_compute. reflexivity.
  - exact hiccup_served.
  - simpl. lia.
Defined.

Example get_query_from_interpro_two_pages :
  fst (get_query_from_interpro two_page_world 1 ipr1 (initial_state ∅))
  = Done (VList [rec_a; rec_b; rec_c]).
Proof. vm_compute. reflexivity. Qed.

Example get_query_from_interpro_one_page :
  fst (get_query_from_interpro one_page_world 0 ipr1 (initial_state ∅))
  = Done (VList [rec_a; rec_b; rec_c]).
Proof. vm_compute. reflexivity. Qed.

(** C6 as it was stated fails on a first page without results: [next] is
    null, the page holds the empty list, and the fetcher raises instead of
    returning that list. *)
Lemma first_page_empty_counterexample :
  session_get empty_page_world 0 (VStr (base_url ipr1))
  = Resp true (Some (api_page 0 [] VNone)) /\
  (Ok (api_page 0 [] VNone)).["next"]%py = Ok VNone /\
  (Ok (api_page 0 [] VNone)).["results"]%py = Ok (VList []) /\
  fst (get_query_from_interpro empty_page_world 3 ipr1 (initial_state ∅))
  = Raised ZeroDivisionError /\
  fst (get_query_from_interpro empty_page_world 3 ipr1 (initial_state ∅))
  <> Done (VList []).
Proof.
  repeat split; try (vm_compute; reflexivity).
  vm_compute. discriminate.
Qed.

(** Without tqdm the name [tqdm] is unbound at line 68: the fetcher never
    returns, and never loops either. *)
Lemma get_query_from_interpro_without_tqdm (w : world) (fuel : nat) (hit_id : string)
    (st : state) :
  tqdm_installed w = false ->
  exists e, fst (get_query_from_interpro w fuel hit_id st) = Raised e.
Proof.
  intros Htqdm. unfold get_query_from_interpro.
  unfold bind at 1. unfold bind at 1. rewrite get_pg_run.
  destruct (session_get w (requests st) (VStr (base_url hit_id))) as [|[|] [obj|]];
    simpl; eauto.
  destruct ((Ok obj).["next"]%py) as [next|e]; simpl; eauto.
  unfold bind at 1. destruct (page_estimate obj) as [total|e]; simpl; eauto.
  unfold bind at 1. unfold tqdm. rewrite Htqdm. simpl. eauto.
Qed.

(** C5. On a machine without tqdm the import error is caught and the
    message printed, but the run does not continue without a progress
    bar: with no cache file, the first page fetched, the fetcher raises
    [NameError] and the program stops there, nothing cached, nothing
    drawn. *)
Theorem program_without_tqdm_aborts :
  let r := program no_tqdm_world 5 ["ipro_in_tax_division.py"; "2"; ipr1; "out/"]
             (initial_state ∅) in
  fst r = Raised NameError /\
  files (snd r) = ∅ /\
  rendered (trace (snd r)) = [] /\
  printed (trace (snd r))
  = ["Exception:No module named 'tqdm'. " +:+
     "Tqdm instalation optional/recommended. Continuing without."] /\
  calls (trace (snd r)) = ["get_query_from_interpro"] /\
  gets (trace (snd r)) = [VStr (base_url ipr1)].
Proof. vm_compute. repeat split; reflexivity. Qed.

Lemma get_query_from_interpro_empty_page (w : world) (fuel : nat) (hit_id : string)
    (st : state) (obj next count results : value) (n : Z) :
  session_get w (requests st) (VStr (base_url hit_id)) = Resp true (Some obj) ->
  (Ok obj).["next"]%py = Ok next ->
  (Ok obj).["count"]%py = Ok count ->
  Py.int count = Ok n ->
  (Ok obj).["results"]%py = Ok results ->
  Py.len results = Ok 0 ->
  get_query_from_interpro w fuel hit_id st
  = (Raised ZeroDivisionError, requested (VStr (base_url hit_id)) st).
Proof.
  intros Hr Hn Hc Hint Hres Hlen.
  unfold get_query_from_interpro.
  unfold bind at 1. unfold bind at 1.
  rewrite get_pg_run, Hr, Hn. simpl.
  unfold bind at 1. unfold page_estimate.
  rewrite Hc. simpl. rewrite Hint. simpl. rewrite Hres. simpl. rewrite Hlen. simpl.
  reflexivity.
Qed.

(** C10. What is read before it is needed.  In [process_interpro_obj] the
    four fields of a record are read before the membership test: a record
    from which one of them cannot be read (a missing key, for one) makes
    the call raise whatever the set of acceptable ids, hence also when the
    taxonomic id of that record is outside the set.  In
    [get_query_from_interpro] the estimate of the number of pages divides
    the count by the length of the results of the first page: a first page
    with no result raises [ZeroDivisionError] and nothing is returned. *)
Theorem early_reads_abort :
  (forall (tax_to_keep : gset Z) (pre post : list value) (r : value) (e : exn),
     extract r = Raise e ->
     exists e', process_interpro_obj (VList (pre ++ r :: post)) tax_to_keep = Raise e') /\
  (forall (w : world) (fuel : nat) (hit_id : string) (st : state)
          (obj next count results : value) (n : Z),
     session_get w (requests st) (VStr (base_url hit_id)) = Resp true (Some obj) ->
     (Ok obj).["next"]%py = Ok next ->
     (Ok obj).["count"]%py = Ok count ->
     Py.int count = Ok n ->
     (Ok obj).["results"]%py = Ok results ->
     Py.len results = Ok 0 ->
     fst (get_query_from_interpro w fuel hit_id st) = Raised ZeroDivisionError).
Proof.
  split.
  - intros keep pre post r e He. unfold process_interpro_obj. simpl.
    apply (fold_process_Raise keep pre post r [] e He).
  - intros w fuel hit_id st obj next count results n Hr Hn Hc Hint Hres Hlen.
    rewrite (get_query_from_interpro_empty_page w fuel hit_id st obj next count results n
               Hr Hn Hc Hint Hres Hlen).
    reflexivity.
Qed.

Lemma early_reads_abort_witness :
  (extract rec_b_no_length = Raise (KeyError (VStr "length")) /\
   (Ok rec_b_no_length).["metadata"].["source_organism"].["taxId"]%py = Ok (VStr "9606") /\
   (9606%Z ∉ planctomycetes) /\
   exists e',
     process_interpro_obj (VList ([rec_a] ++ rec_b_no_length :: [rec_c])) planctomycetes
     = Raise e') /\
  fst (get_query_from_interpro empty_page_world 3 ipr1 (initial_state ∅))
  = Raised ZeroDivisionError.
Proof.
  assert (extract rec_b_no_length = Raise (KeyError (VStr "length"))) as He
    by (vm_compute; reflexivity).
  split; [split; [exact He | split; [vm_compute; reflexivity | split]] |].
  - vm_compute. intros H. discriminate H.
  - exact (proj1 early_reads_abort planctomycetes [rec_a] [rec_c] rec_b_no_length _ He).
  - apply (proj2 early_reads_abort empty_page_world 3 ipr1 (initial_state ∅)
             (api_page 0 [] VNone) VNone (VInt 0) (VList []) 0%Z);
      vm_compute; reflexivity.
Defined.

(** ** Invariants of a run *)

Section Invariant.

Context (R : state -> state -> Prop) (ok : event -> Prop).
Hypothesis R_refl : forall st, R st st.
Hypothesis R_trans : forall st1 st2 st3, R st1 st2 -> R st2 st3 -> R st1 st3.
Hypothesis R_emit :
  forall e st, ok e ->
    R st {| requests := requests st; files := files st; trace := trace st ++ [e] |}.

Lemma preserves_ret {A} (a : A) : preserves R (ret a).
Proof. intros st. apply R_refl. Qed.

Lemma preserves_raise {A} (e : exn) : preserves R (@raise A e).
Proof. intros st. apply R_refl. Qed.

Lemma preserves_out_of_fuel {A} : preserves R (@out_of_fuel A).
Proof. intros st. apply R_refl. Qed.

Lemma preserves_lift {A} (r : result A) : preserves R (lift r).
Proof. destruct r; [apply preserves_ret | apply preserves_raise]. Qed.

Lemma preserves_emit (e : event) : ok e -> preserves R (emit e).
Proof. intros He st. apply R_emit, He. Qed.

Lemma preserves_bind {A B} (m : M A) (k : A -> M B) :
  preserves R m -> (forall a, preserves R (k a)) -> preserves R (bind m k).
Proof.
  intros Hm Hk st. unfold bind. specialize (Hm st).
  destruct (m st) as [[a|e|] st']; simpl in *; [|exact Hm|exact Hm].
  eapply R_trans; [exact Hm | apply Hk].
Qed.

(** After [lift r] the continuation runs on what [r] returned. *)
Lemma preserves_bind_lift {A B} (r : result A) (k : A -> M B) :
  (forall a, r = Ok a -> preserves R (k a)) -> preserves R (bind (lift r) k).
Proof.
  intros Hk st. destruct r as [a|e]; unfold bind; simpl.
  - apply (Hk a eq_refl).
  - apply R_refl.
Qed.

Lemma preserves_try_except_else {A B} (m : M A) (handler : M B) (k : A -> M B) :
  preserves R m -> preserves R handler -> (forall a, preserves R (k a)) ->
  preserves R (try_except_else m handler k).
Proof.
  intros Hm Hh Hk st. unfold try_except_else. specialize (Hm st).
  destruct (m st) as [[a|e|] st']; simpl in *.
  - eapply R_trans; [exact Hm | apply Hk].
  - eapply R_trans; [exact Hm | apply Hh].
  - exact Hm.
Qed.

Lemma preserves_call {A} (f : string) (body : M A) :
  ok (EvCall f) -> preserves R body -> preserves R (call f body).
Proof.
  intros Hf Hbody. unfold call.
  apply preserves_bind; [apply preserves_emit, Hf|]. intros _. exact Hbody.
Qed.

Lemma preserves_bind_call_lift {A B} (f : string) (r : result A) (k : A -> M B) :
  ok (EvCall f) ->
  (forall a, r = Ok a -> preserves R (k a)) ->
  preserves R (bind (call f (lift r)) k).
Proof.
  intros Hf Hk st. unfold call, bind. simpl. destruct r as [a|e]; simpl.
  - eapply R_trans; [apply R_emit, Hf | apply (Hk a eq_refl)].
  - apply R_emit, Hf.
Qed.

(** A rendering: the event, and the drawing when a file is left. *)
Lemma preserves_render (w : world) (file_name : string) (final_tree : tree) :
  ok (EvRender file_name final_tree) ->
  (forall st, R st {| requests := requests st;
                      files := <[file_name := Drawing final_tree]> (files st);
                      trace := trace st |}) ->
  preserves R (render w file_name final_tree).
Proof.
  intros Hok Hdraw. unfold render.
  apply preserves_bind; [apply preserves_emit, Hok|]. intros _.
  apply preserves_bind; [|intros _; apply preserves_lift].
  destruct (snd (tree_render w file_name final_tree)); [|apply preserves_ret].
  intros st. apply Hdraw.
Qed.

(** The tree stage: a rendering and a display. *)
Lemma preserves_make_tree (w : world) (ipr_obj : list Protein) (main_tax_id : Z)
    (queried_dom save_to_dir : string) :
  (forall t, ok (EvRender (render_path save_to_dir queried_dom main_tax_id) t)) ->
  ok (EvShow queried_dom) ->
  (forall t st,
     R st {| requests := requests st;
             files := <[render_path save_to_dir queried_dom main_tax_id := Drawing t]>
                        (files st);
             trace := trace st |}) ->
  preserves R (make_tree w ipr_obj main_tax_id queried_dom save_to_dir).
Proof.
  intros Hrender Hshow Hdraw. unfold make_tree.
  apply preserves_bind; [apply preserves_lift|]. intros tree_file.
  apply preserves_bind; [apply preserves_lift|]. intros final_tree.
  apply preserves_bind; [apply preserves_render; [apply Hrender | apply Hdraw]|].
  intros _.
  apply preserves_bind; [apply preserves_emit, Hshow|]. intros _.
  apply preserves_lift.
Qed.

Lemma preserves_os_path_exists (path : string) :
  ok (EvExists path) -> preserves R (os_path_exists path).
Proof.
  intros Hok. unfold os_path_exists.
  apply preserves_bind; [apply preserves_emit, Hok|]. intros _ st. apply R_refl.
Qed.

Lemma preserves_pickle_load (path : string) :
  ok (EvLoad path) -> preserves R (pickle_load path).
Proof.
  intros Hok. unfold pickle_load.
  apply preserves_bind; [apply preserves_emit, Hok|]. intros _ st.
  destruct (files st !! path) as [[ps| |t]|]; apply R_refl.
Qed.

(** The fetch stage, when [R] accepts that a request is counted. *)
Section Fetch.

Hypothesis R_request :
  forall st, R st {| requests := S (requests st); files := files st; trace := trace st |}.
Hypothesis ok_sleep : ok (EvSleep 1).
Hypothesis ok_get : forall url, ok (EvGet url).
Hypothesis ok_bar : forall n total, ok (EvBar n total).

Lemma preserves_get_pg (w : world) (url : value) : preserves R (get_pg w url).
Proof.
  unfold get_pg.
  apply preserves_bind; [apply preserves_emit, ok_sleep|]. intros _.
  apply preserves_bind; [apply preserves_emit, ok_get|]. intros _ st.
  destruct (session_get w (requests st) url) as [|[|] body]; simpl.
  - apply R_request.
  - eapply R_trans; [apply R_request|].
    apply preserves_bind; [apply preserves_lift|]. intros o.
    apply preserves_bind; [apply preserves_lift|]. intros next_page.
    apply preserves_ret.
  - apply R_request.
Qed.

Lemma preserves_update (pbar : progress) (n : Z) : preserves R (update pbar n).
Proof.
  unfold update. destruct (bar_disable pbar); [apply preserves_ret|].
  apply preserves_bind; [apply preserves_emit, ok_bar|]. intros _. apply preserves_ret.
Qed.

Lemma preserves_page_loop (w : world) (fuel : nat) :
  forall (results next_page : value) (pbar : progress),
    preserves R (page_loop w fuel results next_page pbar).
Proof.
  induction fuel as [|fuel IH]; intros results next_page pbar.
  - destruct next_page; first [apply preserves_ret | apply preserves_out_of_fuel].
  - assert (preserves R
              (try_except_else
                 (bind (get_pg w next_page) (fun r => lift (unpack r)))
                 (page_loop w fuel results next_page pbar)
                 (fun p =>
                    let '(new_obj, next_page') := p in
                    (new_results <- lift ((Ok new_obj).["results"])%py ;;
                     entries <- lift (Py.iter new_results) ;;
                     results' <- lift (foldM Py.append results entries) ;;
                     pbar' <- update pbar 1 ;;
                     page_loop w fuel results' next_page' pbar')%M))) as Hstep.
    { apply preserves_try_except_else.
      - apply preserves_bind; [apply preserves_get_pg|]. intros r. apply preserves_lift.
      - apply IH.
      - intros [new_obj next_page'].
        apply preserves_bind; [apply preserves_lift|]. intros new_results.
        apply preserves_bind; [apply preserves_lift|]. intros entries.
        apply preserves_bind; [apply preserves_lift|]. intros results'.
        apply preserves_bind; [apply preserves_update|]. intros pbar'.
        apply IH. }
    destruct next_page; first [apply preserves_ret | exact Hstep].
Qed.

Lemma preserves_tqdm (w : world) (total initial : Z) (disable : bool) :
  preserves R (tqdm w total initial disable).
Proof.
  unfold tqdm. destruct (tqdm_installed w); [|apply preserves_raise].
  destruct disable; [apply preserves_ret|].
  apply preserves_bind; [apply preserves_emit, ok_bar|]. intros _. apply preserves_ret.
Qed.

Lemma preserves_get_query_from_interpro (w : world) (fuel : nat) (hit_id : string) :
  preserves R (get_query_from_interpro w fuel hit_id).
Proof.
  unfold get_query_from_interpro.
  apply preserves_bind; [apply preserves_get_pg|]. intros r.
  apply preserves_bind; [apply preserves_lift|]. intros [obj next_page].
  apply preserves_bind; [apply preserves_lift|]. intros total.
  apply preserves_bind; [apply preserves_tqdm|]. intros pbar.
  apply preserves_bind; [apply preserves_lift|]. intros results.
  apply preserves_page_loop.
Qed.

End Fetch.

End Invariant.

Lemma extends_refl (ok : event -> Prop) (st : state) : extends ok st st.
Proof. exists []. split; [rewrite app_nil_r; reflexivity | constructor]. Qed.

Lemma extends_trans (ok : event -> Prop) (st1 st2 st3 : state) :
  extends ok st1 st2 -> extends ok st2 st3 -> extends ok st1 st3.
Proof.
  intros (evs1 & H1 & F1) (evs2 & H2 & F2). exists (evs1 ++ evs2). split.
  - rewrite H2, H1, app_assoc. reflexivity.
  - apply Forall_app. split; assumption.
Qed.

Lemma extends_emit (ok : event -> Prop) (e : event) (st : state) (n : nat)
    (fs : gmap string file) :
  ok e -> extends ok st {| requests := n; files := fs; trace := trace st ++ [e] |}.
Proof. intros He. exists [e]. split; [reflexivity | repeat constructor; exact He]. Qed.

Lemma extends_same_trace (ok : event -> Prop) (st : state) (n : nat)
    (fs : gmap string file) :
  extends ok st {| requests := n; files := fs; trace := trace st |}.
Proof. exists []. split; [simpl; rewrite app_nil_r; reflexivity | constructor]. Qed.

Lemma writes_refl (good : list Protein -> Prop) (st : state) : writes good st st.
Proof. intros path ps H. left. exact H. Qed.

Lemma writes_trans (good : list Protein -> Prop) (st1 st2 st3 : state) :
  writes good st1 st2 -> writes good st2 st3 -> writes good st1 st3.
Proof.
  intros H1 H2 path ps H. destruct (H2 path ps H) as [E2|W2]; [|right; exact W2].
  apply (H1 path ps E2).
Qed.

Lemma writes_same_files (good : list Protein -> Prop) (st : state) (n : nat)
    (tr : list event) :
  writes good st {| requests := n; files := files st; trace := tr |}.
Proof. intros path ps H. left. exact H. Qed.

(** A file that is written, when it is not a pickle or holds a good
    list. *)
Lemma writes_insert (good : list Protein -> Prop) (st : state) (n : nat)
    (tr : list event) (name : string) (f : file) :
  (forall ps, f = Pickled ps -> good ps) ->
  writes good st {| requests := n; files := <[name := f]> (files st); trace := tr |}.
Proof.
  intros Hf path ps. simpl. destruct (decide (name = path)) as [<-|Hne].
  - rewrite lookup_insert_eq. intros [= ->]. right. apply Hf. reflexivity.
  - rewrite lookup_insert_ne by exact Hne. intros H. left. exact H.
Qed.

(** What the filter keeps belongs to the set. *)
Lemma process_interpro_obj_members (ip_obj : value) (tax_to_keep : gset Z)
    (out : list Protein) :
  process_interpro_obj ip_obj tax_to_keep = Ok out ->
  Forall (fun p => prot_tax p ∈ tax_to_keep) out.
Proof.
  unfold process_interpro_obj. intros H.
  apply rbind_Ok in H as (l & _ & H).
  apply fold_process_Ok in H as (ps & _ & ->). simpl.
  apply Forall_forall. intros p Hp. apply list_elem_of_filter in Hp as [Hp _]. exact Hp.
Qed.

(** Invariants of [main].  [R] relates the states of a run; [ok] holds of
    the events recorded. *)
Section MainInvariant.

Context (w : world) (tax_id : Z) (query_dom_id save_to_dir : string).
Context (R : state -> state -> Prop) (ok : event -> Prop).
Hypothesis R_refl : forall st, R st st.
Hypothesis R_trans : forall st1 st2 st3, R st1 st2 -> R st2 st3 -> R st1 st3.
Hypothesis R_emit :
  forall e st, ok e ->
    R st {| requests := requests st; files := files st; trace := trace st ++ [e] |}.
Hypothesis R_request :
  forall st, R st {| requests := S (requests st); files := files st; trace := trace st |}.
Hypothesis R_write :
  forall st ps descendents,
    descendant_taxa w tax_id = Ok descendents ->
    Forall (fun p => prot_tax p ∈ descendents) ps ->
    R st {| requests := requests st;
            files := <[cache_path tax_id query_dom_id := Pickled ps]> (files st);
            trace := trace st |}.
Hypothesis R_broken :
  forall st,
    R st {| requests := requests st;
            files := <[cache_path tax_id query_dom_id := Unreadable]> (files st);
            trace := trace st |}.
Hypothesis ok_load : ok (EvLoad (cache_path tax_id query_dom_id)).
Hypothesis ok_call : forall f, ok (EvCall f).
Hypothesis ok_sleep : ok (EvSleep 1).
Hypothesis ok_get : forall url, ok (EvGet url).
Hypothesis ok_bar : forall n total, ok (EvBar n total).
Hypothesis ok_dump :
  forall ps descendents,
    descendant_taxa w tax_id = Ok descendents ->
    Forall (fun p => prot_tax p ∈ descendents) ps ->
    ok (EvDump (cache_path tax_id query_dom_id) ps).

Local Ltac seq := apply (preserves_bind R R_trans).
Local Ltac record := apply (preserves_emit R ok R_emit).

(** Lines 179-186: the list comes from the cache file, or from the
    fetch and filter stages, which then write the file. *)
Lemma preserves_load_or_fetch (fuel : nat) (descendents : gset Z) (cached : bool) :
  descendant_taxa w tax_id = Ok descendents ->
  preserves R
    (if cached then pickle_load (cache_path tax_id query_dom_id)
     else
       (itrpro_obj <- call "get_query_from_interpro"
                        (get_query_from_interpro w fuel query_dom_id) ;;
        process_itrpro_obj <- call "process_interpro_obj"
                                (lift (process_interpro_obj itrpro_obj descendents)) ;;
        pickle_dump w (cache_path tax_id query_dom_id) process_itrpro_obj ;;;
        ret process_itrpro_obj)%M).
Proof.
  intros Hdesc. destruct cached.
  - apply (preserves_pickle_load R ok R_refl R_trans R_emit), ok_load.
  - seq.
    { apply (preserves_call R ok R_trans R_emit); [apply ok_call|].
      apply (preserves_get_query_from_interpro R ok R_refl R_trans R_emit R_request);
        assumption. }
    intros itrpro_obj.
    apply (preserves_bind_call_lift R ok R_trans R_emit); [apply ok_call|].
    intros ps Hps.
    apply process_interpro_obj_members in Hps.
    seq; [|intros _; apply (preserves_ret R R_refl)].
    unfold pickle_dump.
    seq; [record; apply (ok_dump ps descendents Hdesc Hps)|]. intros _.
    destruct (file_write w (cache_path tax_id query_dom_id) ps) as [|e|e].
    + intros st. apply (R_write st ps descendents Hdesc Hps).
    + apply (preserves_raise R R_refl).
    + seq; [intros st; apply R_broken | intros _; apply (preserves_raise R R_refl)].
Qed.

Hypothesis ok_taxa : ok (EvTaxa tax_id).
Hypothesis ok_exists : ok (EvExists (cache_path tax_id query_dom_id)).
Hypothesis ok_render :
  forall t, ok (EvRender (render_path save_to_dir query_dom_id tax_id) t).
Hypothesis ok_show : ok (EvShow query_dom_id).
Hypothesis ok_finished : ok (EvPrint "Finished script.").
Hypothesis R_draw :
  forall t st,
    R st {| requests := requests st;
            files := <[render_path save_to_dir query_dom_id tax_id := Drawing t]>
                       (files st);
            trace := trace st |}.

Lemma preserves_main (fuel : nat) :
  preserves R (main w fuel tax_id query_dom_id save_to_dir).
Proof.
  unfold main.
  seq; [record; apply ok_taxa|]. intros _.
  apply (preserves_bind_lift R R_refl). intros descendents Hdesc.
  seq.
  { apply (preserves_os_path_exists R ok R_refl R_trans R_emit), ok_exists. }
  intros cached.
  seq; [apply (preserves_load_or_fetch fuel descendents cached Hdesc)|].
  intros process_itrpro_obj.
  seq.
  { apply (preserves_call R ok R_trans R_emit); [apply ok_call|].
    apply (preserves_make_tree R ok R_refl R_trans R_emit);
      [apply ok_render | apply ok_show | apply R_draw]. }
  intros _. record. apply ok_finished.
Qed.

End MainInvariant.

(** Every event of a run of [main] is one of [main_event], and the only
    lists written to a file hold descendants of the root. *)
Lemma main_run_invariant (w : world) (fuel : nat) (tax_id : Z)
    (query_dom_id save_to_dir : string) (st : state) :
  extends (main_event w tax_id query_dom_id save_to_dir) st
    (snd (main w fuel tax_id query_dom_id save_to_dir st)) /\
  writes (descendants_only w tax_id) st
    (snd (main w fuel tax_id query_dom_id save_to_dir st)).
Proof.
  apply (preserves_main w tax_id query_dom_id save_to_dir
           (fun st st' =>
              extends (main_event w tax_id query_dom_id save_to_dir) st st' /\
              writes (descendants_only w tax_id) st st')
           (main_event w tax_id query_dom_id save_to_dir)).
  - intros st0. split; [apply extends_refl | apply writes_refl].
  - intros st1 st2 st3 [E1 W1] [E2 W2].
    split; [eapply extends_trans | eapply writes_trans]; eassumption.
  - intros e st0 He. split; [apply extends_emit, He | apply writes_same_files].
  - intros st0. split; [apply extends_same_trace | apply writes_same_files].
  - intros st0 ps d Hd Hps. split; [apply extends_same_trace|].
    apply writes_insert. intros ps' [= <-]. exists d. split; assumption.
  - intros st0. split; [apply extends_same_trace|].
    apply writes_insert. discriminate.
  - constructor.
  - intros f. constructor.
  - constructor.
  - constructor.
  - constructor.
  - intros ps d Hd Hps. econstructor; eassumption.
  - constructor.
  - constructor.
  - constructor.
  - constructor.
  - constructor.
  - intros t st0. split; [apply extends_same_trace|].
    apply writes_insert. discriminate.
Qed.

Lemma dumped_main_event (w : world) (tax_id : Z) (query_dom_id save_to_dir : string)
    (evs : list event) :
  Forall (main_event w tax_id query_dom_id save_to_dir) evs ->
  Forall (fun d => descendants_only w tax_id (snd d)) (dumped evs).
Proof.
  induction 1 as [|e evs He _ IH]; [constructor|].
  destruct e; try exact IH.
  inversion He as [| | | | | | |ps' d Hd Hps| | | ]; subst.
  constructor; [|exact IH]. exists d. split; assumption.
Qed.

Lemma file_names_main_event (w : world) (tax_id : Z) (query_dom_id save_to_dir : string)
    (evs : list event) :
  Forall (main_event w tax_id query_dom_id save_to_dir) evs ->
  Forall (fun p => p = cache_path tax_id query_dom_id) (file_names evs).
Proof.
  induction 1 as [|e evs He _ IH]; [constructor|].
  destruct e; try exact IH; inversion He; subst; constructor; (reflexivity || exact IH).
Qed.

Lemma rendered_main_event (w : world) (tax_id : Z) (query_dom_id save_to_dir : string)
    (evs : list event) :
  Forall (main_event w tax_id query_dom_id save_to_dir) evs ->
  Forall (fun p => p = render_path save_to_dir query_dom_id tax_id) (rendered evs).
Proof.
  induction 1 as [|e evs He _ IH]; [constructor|].
  destruct e; try exact IH; inversion He; subst; constructor; (reflexivity || exact IH).
Qed.

(** C7. The cache holds descendants only: whatever list of [Protein] a run
    of [main] pickles, each of its records has a taxonomic id in the set of
    descendants computed for the root of that run, and so has any pickled
    list found in a file after the run that was not in that file before. *)
Theorem cache_holds_descendants_only (w : world) (fuel : nat) (tax_id : Z)
    (query_dom_id save_to_dir : string) (st : state) :
  let st' := snd (main w fuel tax_id query_dom_id save_to_dir st) in
  (exists evs,
     trace st' = trace st ++ evs /\
     Forall (fun d =>
               exists descendents,
                 descendant_taxa w tax_id = Ok descendents /\
                 Forall (fun p => prot_tax p ∈ descendents) (snd d))
            (dumped evs)) /\
  (forall path ps,
     files st' !! path = Some (Pickled ps) ->
     files st !! path = Some (Pickled ps) \/
     exists descendents,
       descendant_taxa w tax_id = Ok descendents /\
       Forall (fun p => prot_tax p ∈ descendents) ps).
Proof.
  simpl.
  destruct (main_run_invariant w fuel tax_id query_dom_id save_to_dir st)
    as [(evs & Htrace & Hevs) Hfiles].
  split.
  - exists evs. split; [exact Htrace|].
    apply (dumped_main_event w tax_id query_dom_id save_to_dir evs Hevs).
  - intros path ps Hps. destruct (Hfiles path ps Hps) as [Heq|(d & Hd & Hin)].
    + left. exact Heq.
    + right. exists d. auto.
Qed.

Example cache_of_a_run :
  let st' := snd (main two_page_world 4 2 ipr1 "./" (initial_state ∅)) in
  dumped (trace st') = [("ip_obj_2_IPR000001.pkl", [prot_a; prot_c])] /\
  files st' !! "ip_obj_2_IPR000001.pkl" = Some (Pickled [prot_a; prot_c]) /\
  (exists t, files st' !! "./IPR000001_in_2.pdf" = Some (Drawing t)) /\
  descendant_taxa two_page_world 2 = Ok planctomycetes.
Proof. vm_compute. repeat split; try reflexivity. eexists. reflexivity. Qed.

(** ** Where a run that finishes has been *)

Lemma bind_Done {A B} (m : M A) (k : A -> M B) (st st' : state) (b : B) :
  bind m k st = (Done b, st') ->
  exists a st1, m st = (Done a, st1) /\ k a st1 = (Done b, st').
Proof.
  unfold bind. destruct (m st) as [[a|e|] st1]; intros H; try discriminate.
  exists a, st1. auto.
Qed.

Lemma lift_Done {A} (r : result A) (st st' : state) (a : A) :
  lift r st = (Done a, st') -> r = Ok a /\ st' = st.
Proof. destruct r; simpl; intros [= <- <-] || intros [=]; auto. Qed.

Lemma emit_run (e : event) (st : state) :
  emit e st
  = (Done tt, {| requests := requests st; files := files st; trace := trace st ++ [e] |}).
Proof. reflexivity. Qed.

Lemma render_Done (w : world) (file_name : string) (final_tree : tree) (st st' : state) :
  render w file_name final_tree st = (Done tt, st') ->
  trace st' = trace st ++ [EvRender file_name final_tree].
Proof.
  unfold render. intros H.
  apply bind_Done in H as ([] & s1 & H1 & H). rewrite emit_run in H1. injection H1 as <-.
  apply bind_Done in H as ([] & s2 & H2 & H). apply lift_Done in H as [_ ->].
  destruct (snd (tree_render w file_name final_tree)); injection H2 as <-; reflexivity.
Qed.

Lemma make_tree_Done (w : world) (ipr_obj : list Protein) (main_tax_id : Z)
    (queried_dom save_to_dir : string) (st st' : state) :
  make_tree w ipr_obj main_tax_id queried_dom save_to_dir st = (Done tt, st') ->
  exists t,
    trace st' = trace st ++ [EvRender (render_path save_to_dir queried_dom main_tax_id) t;
                             EvShow queried_dom].
Proof.
  unfold make_tree. intros H.
  apply bind_Done in H as (tree_file & s2 & H2 & H). apply lift_Done in H2 as [_ ->].
  apply bind_Done in H as (final_tree & s3 & H3 & H). apply lift_Done in H3 as [_ ->].
  apply bind_Done in H as ([] & s5 & H5 & H).
  apply render_Done in H5.
  apply bind_Done in H as ([] & s6 & H6 & H). rewrite emit_run in H6.
  injection H6 as <-. apply lift_Done in H as [_ ->].
  exists final_tree. simpl. rewrite H5, <- !app_assoc. reflexivity.
Qed.

Lemma rendered_not_render (evs : list event) : Forall not_render evs -> rendered evs = [].
Proof.
  induction 1 as [|e evs He _ IH]; [reflexivity|].
  destruct e; try exact IH. destruct He.
Qed.

Lemma rendered_app (evs1 evs2 : list event) :
  rendered (evs1 ++ evs2) = rendered evs1 ++ rendered evs2.
Proof. apply omap_app. Qed.

(** A run of [main] that finishes has rendered once, at the very end. *)
Lemma main_Done (w : world) (fuel : nat) (tax_id : Z) (query_dom_id save_to_dir : string)
    (st st' : state) :
  main w fuel tax_id query_dom_id save_to_dir st = (Done tt, st') ->
  exists before t,
    rendered before = [] /\
    trace st' = trace st ++ before
                ++ [EvCall "make_tree";
                    EvRender (render_path save_to_dir query_dom_id tax_id) t;
                    EvShow query_dom_id;
                    EvPrint "Finished script."].
Proof.
  unfold main. intros H.
  apply bind_Done in H as ([] & s1 & H1 & H). rewrite emit_run in H1. injection H1 as <-.
  apply bind_Done in H as (descendents & s2 & H2 & H). apply lift_Done in H2 as [Hdesc ->].
  apply bind_Done in H as (cached & s3 & H3 & H).
  unfold os_path_exists in H3.
  apply bind_Done in H3 as ([] & s3' & H3 & H3'). rewrite emit_run in H3.
  injection H3 as <-. injection H3' as _ <-.
  apply bind_Done in H as (ps & s4 & H4 & H).
  apply bind_Done in H as ([] & s5 & H5 & H).
  rewrite emit_run in H. injection H as <-.
  unfold call in H5. apply bind_Done in H5 as ([] & s4' & H4' & H5).
  rewrite emit_run in H4'. injection H4' as <-.
  apply make_tree_Done in H5 as (t & H5).
  pose proof (preserves_load_or_fetch w tax_id query_dom_id
                (extends not_render) not_render
                (extends_refl not_render) (extends_trans not_render)
                (fun e st0 He => extends_emit not_render e st0 _ _ He)
                (fun st0 => extends_same_trace not_render st0 _ _)
                (fun st0 ps0 d _ _ => extends_same_trace not_render st0 _ _)
                (fun st0 => extends_same_trace not_render st0 _ _)
                I (fun _ => I) I (fun _ => I) (fun _ _ => I) (fun _ _ _ _ => I)
                fuel descendents cached Hdesc) as Hpre.
  specialize (Hpre {| requests := requests st; files := files st;
                      trace := (trace st ++ [EvTaxa tax_id])
                               ++ [EvExists (cache_path tax_id query_dom_id)] |}).
  rewrite H4 in Hpre. destruct Hpre as (evs & Hevs & Hnr). simpl in Hevs.
  exists ([EvTaxa tax_id; EvExists (cache_path tax_id query_dom_id)] ++ evs), t.
  split.
  - rewrite rendered_app, (rendered_not_render evs Hnr). reflexivity.
  - simpl. rewrite H5. simpl. rewrite Hevs. rewrite <- !app_assoc. reflexivity.
Qed.

(** C8, amended. The names of the files of a run with root id [T], domain
    id [D] and output directory [O]: the only file the run tests, reads or
    writes as its cache is the relative name [ip_obj_<T>_<D>.pkl]; the tree
    is rendered to the name made of [O] immediately followed by
    [<D>_in_<T>.pdf], no separator being added between the directory and
    the file; a run that finishes has rendered exactly once. *)
Theorem names_of_the_files (w : world) (fuel : nat) (tax_id : Z)
    (query_dom_id save_to_dir : string) (st : state) :
  let r := main w fuel tax_id query_dom_id save_to_dir st in
  exists evs,
    trace (snd r) = trace st ++ evs /\
    Forall (fun p => p = "ip_obj_" +:+ pretty tax_id +:+ "_" +:+ query_dom_id +:+ ".pkl")
           (file_names evs) /\
    Forall (fun p => p = save_to_dir +:+ query_dom_id +:+ "_in_" +:+ pretty tax_id +:+ ".pdf")
           (rendered evs) /\
    (fst r = Done tt ->
     rendered evs = [save_to_dir +:+ query_dom_id +:+ "_in_" +:+ pretty tax_id +:+ ".pdf"]).
Proof.
  simpl.
  destruct (main_run_invariant w fuel tax_id query_dom_id save_to_dir st)
    as [(evs & Htrace & Hevs) _].
  exists evs. split; [exact Htrace|]. split; [|split].
  - apply (file_names_main_event w tax_id query_dom_id save_to_dir evs Hevs).
  - apply (rendered_main_event w tax_id query_dom_id save_to_dir evs Hevs).
  - intros Hdone.
    destruct (main w fuel tax_id query_dom_id save_to_dir st) as [o st'] eqn:Hrun.
    simpl in *. subst o.
    apply main_Done in Hrun as (before & t & Hbefore & Htrace').
    rewrite Htrace' in Htrace. apply app_inv_head in Htrace. subst evs.
    rewrite rendered_app, Hbefore. reflexivity.
Qed.

Lemma append_assoc (a b c : string) : (a +:+ b) +:+ c = a +:+ (b +:+ c).
Proof.
  induction a as [|x a IH]; [reflexivity|].
  change (String x ((a +:+ b) +:+ c) = String x (a +:+ (b +:+ c))).
  rewrite IH. reflexivity.
Qed.

(** When the output directory is given with its separator, the tree lands
    in that directory. *)
Lemma render_path_in_directory (dir queried_dom : string) (main_tax_id : Z) :
  render_path (dir +:+ "/") queried_dom main_tax_id
  = dir +:+ "/" +:+ queried_dom +:+ "_in_" +:+ pretty main_tax_id +:+ ".pdf".
Proof. unfold render_path. apply append_assoc. Qed.

Lemma names_of_the_files_witness :
  exists evs,
    trace (snd (main one_page_world 2 2 ipr1 "plots/" (initial_state ∅))) = [] ++ evs /\
    Forall (fun p => p = "ip_obj_" +:+ pretty 2%Z +:+ "_" +:+ ipr1 +:+ ".pkl")
           (file_names evs) /\
    Forall (fun p => p = "plots/" +:+ ipr1 +:+ "_in_" +:+ pretty 2%Z +:+ ".pdf")
           (rendered evs) /\
    (fst (main one_page_world 2 2 ipr1 "plots/" (initial_state ∅)) = Done tt ->
     rendered evs = ["plots/" +:+ ipr1 +:+ "_in_" +:+ pretty 2%Z +:+ ".pdf"]).
Proof.
  exact (names_of_the_files one_page_world 2 2 ipr1 "plots/" (initial_state ∅)).
Defined.

Example names_of_a_run :
  let r := main one_page_world 2 2 ipr1 "plots/" (initial_state ∅) in
  fst r = Done tt /\
  file_names (trace (snd r)) = ["ip_obj_2_IPR000001.pkl"; "ip_obj_2_IPR000001.pkl"] /\
  rendered (trace (snd r)) = ["plots/IPR000001_in_2.pdf"].
Proof. vm_compute. repeat split; reflexivity. Qed.

(** C8 as it was stated fails when the output directory does not end with
    a separator: with the directory [out] the tree goes to
    [outIPR000001_in_2.pdf] in the working directory, not to
    [out/IPR000001_in_2.pdf]. *)
Lemma render_path_counterexample :
  let r := main one_page_world 2 2 ipr1 "out" (initial_state ∅) in
  fst r = Done tt /\
  rendered (trace (snd r)) = ["outIPR000001_in_2.pdf"] /\
  rendered (trace (snd r)) <> ["out" +:+ "/" +:+ ipr1 +:+ "_in_" +:+ pretty 2%Z +:+ ".pdf"].
Proof.
  vm_compute. split; [reflexivity|]. split; [reflexivity|]. discriminate.
Qed.

(** ** A run over an existing cache file *)

(** With the cache file there, [main] goes from the test of line 179
    straight to [pickle.load]. *)
Lemma main_cached (w : world) (fuel : nat) (tax_id : Z) (query_dom_id save_to_dir : string)
    (st : state) (c : file) (descendents : gset Z) :
  files st !! cache_path tax_id query_dom_id = Some c ->
  descendant_taxa w tax_id = Ok descendents ->
  main w fuel tax_id query_dom_id save_to_dir st
  = (process_itrpro_obj <- pickle_load (cache_path tax_id query_dom_id) ;;
     call "make_tree" (make_tree w process_itrpro_obj tax_id query_dom_id save_to_dir) ;;;
     emit (EvPrint "Finished script."))%M
      {| requests := requests st;
         files := files st;
         trace := trace st ++ [EvTaxa tax_id; EvExists (cache_path tax_id query_dom_id)] |}.
Proof.
  intros Hfile Hdesc. unfold main.
  unfold bind at 1. rewrite emit_run.
  unfold bind at 1. rewrite Hdesc. cbn [lift ret].
  unfold bind at 1. unfold os_path_exists at 1. unfold bind at 1. rewrite emit_run.
  cbn [files trace requests].
  rewrite Hfile. rewrite bool_decide_eq_true_2 by (exists c; reflexivity).
  rewrite <- app_assoc. reflexivity.
Qed.

Lemma quiet_refl (st : state) : quiet st st.
Proof. split; [apply extends_refl | reflexivity]. Qed.

Lemma quiet_trans (st1 st2 st3 : state) : quiet st1 st2 -> quiet st2 st3 -> quiet st1 st3.
Proof.
  intros [E1 Q1] [E2 Q2]. split; [eapply extends_trans; eassumption | congruence].
Qed.

Lemma quiet_same_trace (st : state) (fs : gmap string file) :
  quiet st {| requests := requests st; files := fs; trace := trace st |}.
Proof. split; [apply extends_same_trace | reflexivity]. Qed.

Lemma quiet_emit (e : event) (st : state) :
  no_fetch_no_filter e ->
  quiet st {| requests := requests st; files := files st; trace := trace st ++ [e] |}.
Proof. intros He. split; [apply extends_emit, He | reflexivity]. Qed.

(** C2. A run over an existing cache file: when the file
    [ip_obj_<tax_id>_<domain_id>.pkl] exists as [main] starts, the run
    enters neither [get_query_from_interpro] nor [process_interpro_obj],
    sleeps for no request and sends none; once the descendants are
    resolved, it loads the file and hands the list it holds to
    [make_tree]. *)
Theorem main_cache_hit (w : world) (fuel : nat) (tax_id : Z)
    (query_dom_id save_to_dir : string) (st : state) (c : file) :
  files st !! cache_path tax_id query_dom_id = Some c ->
  let r := main w fuel tax_id query_dom_id save_to_dir st in
  (exists evs,
     trace (snd r) = trace st ++ evs /\
     Forall (fun e => fetch_or_filter e = false) evs) /\
  requests (snd r) = requests st /\
  (forall descendents ps,
     descendant_taxa w tax_id = Ok descendents ->
     c = Pickled ps ->
     r = (call "make_tree" (make_tree w ps tax_id query_dom_id save_to_dir) ;;;
          emit (EvPrint "Finished script."))%M
           {| requests := requests st;
              files := files st;
              trace := trace st ++ [EvTaxa tax_id;
                                    EvExists (cache_path tax_id query_dom_id);
                                    EvLoad (cache_path tax_id query_dom_id)] |}).
Proof.
  intros Hfile. simpl.
  assert (quiet st (snd (main w fuel tax_id query_dom_id save_to_dir st))) as [Hq Hreq].
  { destruct (descendant_taxa w tax_id) as [descendents|e] eqn:Hdesc.
    - rewrite (main_cached w fuel tax_id query_dom_id save_to_dir st c descendents
                 Hfile Hdesc).
      eapply quiet_trans; [|apply (preserves_bind quiet quiet_trans)].
      + split; [|reflexivity].
        exists [EvTaxa tax_id; EvExists (cache_path tax_id query_dom_id)].
        split; [reflexivity | repeat constructor].
      + apply (preserves_pickle_load quiet no_fetch_no_filter quiet_refl quiet_trans
                 quiet_emit). reflexivity.
      + intros ps. apply (preserves_bind quiet quiet_trans).
        * apply (preserves_call quiet no_fetch_no_filter quiet_trans quiet_emit);
            [reflexivity|].
          apply (preserves_make_tree quiet no_fetch_no_filter quiet_refl quiet_trans
                   quiet_emit); [intros t; reflexivity | reflexivity | intros t st0].
          apply quiet_same_trace.
        * intros _. apply (preserves_emit quiet no_fetch_no_filter quiet_emit).
          reflexivity.
    - unfold main. unfold bind at 1. rewrite emit_run.
      unfold bind at 1. rewrite Hdesc. simpl.
      apply quiet_emit. reflexivity. }
  split; [exact Hq|]. split; [exact Hreq|].
  intros descendents ps Hdesc ->.
  rewrite (main_cached w fuel tax_id query_dom_id save_to_dir st (Pickled ps) descendents
             Hfile Hdesc).
  unfold bind at 1. unfold pickle_load. unfold bind at 1. rewrite emit_run. simpl.
  rewrite Hfile. rewrite <- app_assoc. reflexivity.
Qed.

Lemma main_cache_hit_witness :
  let st := initial_state {[ cache_path 2 ipr1 := Pickled [prot_c] ]} in
  files st !! cache_path 2 ipr1 = Some (Pickled [prot_c]) /\
  let r := main one_page_world 9 2 ipr1 "./" st in
  (exists evs,
     trace (snd r) = trace st ++ evs /\
     Forall (fun e => fetch_or_filter e = false) evs) /\
  requests (snd r) = requests st /\
  (forall descendents ps,
     descendant_taxa one_page_world 2 = Ok descendents ->
     Pickled [prot_c] = Pickled ps ->
     r = (call "make_tree" (make_tree one_page_world ps 2 ipr1 "./") ;;;
          emit (EvPrint "Finished script."))%M
           {| requests := requests st;
              files := files st;
              trace := trace st ++ [EvTaxa 2;
                                    EvExists (cache_path 2 ipr1);
                                    EvLoad (cache_path 2 ipr1)] |}).
Proof.
  assert (files (initial_state {[ cache_path 2 ipr1 := Pickled [prot_c] ]})
            !! cache_path 2 ipr1 = Some (Pickled [prot_c])) as Hfile
    by (vm_compute; reflexivity).
  split; [exact Hfile|].
  exact (main_cache_hit one_page_world 9 2 ipr1 "./"
           (initial_state {[ cache_path 2 ipr1 := Pickled [prot_c] ]})
           (Pickled [prot_c]) Hfile).
Defined.

(** Twice in a row: the second run finds the file the first one wrote and
    sends nothing. *)
Example second_run_sends_nothing :
  let st1 := snd (main one_page_world 2 2 ipr1 "./" (initial_state ∅)) in
  let r2 := main one_page_world 2 2 ipr1 "./" st1 in
  requests st1 = 1 /\
  fst r2 = Done tt /\
  requests (snd r2) = 1 /\
  gets (trace (snd r2)) = gets (trace st1) /\
  calls (trace (snd r2))
  = ["get_query_from_interpro"; "process_interpro_obj"; "make_tree"; "make_tree"].
Proof. vm_compute. repeat split; reflexivity. Qed.

(** ** The command line *)

(** Whenever the arguments are accepted there are at least three of them
    after the name of the script, and the output directory is ["./"]. *)
Lemma parse_args_Ok (argv : list string) (tax_id : Z) (query_dom_id save_to_dir : string) :
  parse_args argv = Ok (tax_id, query_dom_id, save_to_dir) ->
  4 <= length argv /\ save_to_dir = "./" /\ nth_error argv 2 = Some query_dom_id.
Proof.
  unfold parse_args, argv_get.
  destruct argv as [|a0 [|a1 [|a2 [|a3 rest]]]];
    cbn [nth_error rbind length Nat.eqb]; try discriminate;
    destruct (Py.int (VStr a1)); cbn [rbind]; try discriminate.
  intros [= <- <- <-]. repeat split. simpl. lia.
Qed.

(** C4. The command line as the usage documents it, and as it behaves:
    with the two required arguments and nothing else the program does not
    run with ["./"], it raises; with a third argument that argument is not
    used, the output directory is ["./"]; with an argument missing it
    raises. *)
Theorem parse_args_off_by_one :
  parse_args ["ipro_in_tax_division.py"; "2"; "IPR000001"] = Raise TypeError /\
  parse_args ["ipro_in_tax_division.py"; "2"; "IPR000001"; "plots/"]
  = Ok (2%Z, "IPR000001", "./") /\
  parse_args ["ipro_in_tax_division.py"; "2"] = Raise TypeError /\
  fst (program one_page_world 2 ["ipro_in_tax_division.py"; "2"; "IPR000001"]
         (initial_state ∅))
  = Raised TypeError /\
  rendered (trace (snd (program one_page_world 2
                          ["ipro_in_tax_division.py"; "2"; "IPR000001"; "plots/"]
                          (initial_state ∅))))
  = ["./IPR000001_in_2.pdf"].
Proof. vm_compute. repeat split; reflexivity. Qed.

(** * Further properties of the script *)

(** ** The fetch stage: requests and failures *)

(** Whatever the service answers, one call of [get_pg] followed by the
    unpacking of line 66 or 71 costs one sleep and one request. *)
Lemma get_pg_unpack_state (w : world) (url : value) (st : state) :
  snd (bind (get_pg w url) (fun r => lift (unpack r)) st) = requested url st.
Proof.
  unfold bind. rewrite get_pg_run.
  destruct (session_get w (requests st) url) as [|[|] [o|]]; try reflexivity.
  destruct ((Ok o).["next"]%py); reflexivity.
Qed.

(** X1. The first request is not protected: when it fails, for whatever
    reason, [get_query_from_interpro] raises after this single request; it
    neither retries nor returns. *)
Theorem first_request_failure_raises (w : world) (fuel : nat) (hit_id : string)
    (st : state) :
  failure (session_get w (requests st) (VStr (base_url hit_id))) ->
  exists e,
    get_query_from_interpro w fuel hit_id st
    = (Raised e, requested (VStr (base_url hit_id)) st).
Proof.
  intros Hfail.
  destruct (get_pg_unpack_failure w (VStr (base_url hit_id)) st Hfail) as (e & He).
  exists e. unfold get_query_from_interpro.
  unfold bind at 1. unfold bind at 1.
  unfold bind in He.
  destruct (get_pg w (VStr (base_url hit_id)) st) as [[r|e'|] st1]; simpl in *.
  - destruct (unpack r) as [p|e'']; simpl in *; [discriminate|].
    injection He as -> ->. reflexivity.
  - injection He as -> ->. reflexivity.
  - discriminate.
Qed.

Lemma first_request_failure_raises_witness :
  failure (session_get server_error_world 0 (VStr (base_url ipr1))) /\
  exists e,
    get_query_from_interpro server_error_world 9 ipr1 (initial_state ∅)
    = (Raised e, requested (VStr (base_url ipr1)) (initial_state ∅)).
Proof.
  assert (failure (session_get server_error_world 0 (VStr (base_url ipr1)))) as H
    by (simpl; constructor).
  split; [exact H|].
  exact (first_request_failure_raises server_error_world 9 ipr1 (initial_state ∅) H).
Defined.

(** X2. A later page that arrives without readable [results] is not
    retried: the exception of line 75 is raised outside the [try], so the
    fetch aborts and the results gathered so far are lost. *)
Theorem page_without_results_raises (w : world) (fuel : nat) (results url obj next : value)
    (pbar : progress) (st : state) (e : exn) :
  url <> VNone ->
  session_get w (requests st) url = Resp true (Some obj) ->
  (Ok obj).["next"]%py = Ok next ->
  (Ok obj).["results"]%py = Raise e ->
  page_loop w (S fuel) results url pbar st = (Raised e, requested url st).
Proof.
  intros Hurl Hr Hnext Hres.
  assert (page_loop w (S fuel) results url pbar st
          = try_except_else
              (bind (get_pg w url) (fun r => lift (unpack r)))
              (page_loop w fuel results url pbar)
              (fun p =>
                 let '(new_obj, next_page') := p in
                 (new_results <- lift ((Ok new_obj).["results"])%py ;;
                  entries <- lift (Py.iter new_results) ;;
                  results' <- lift (foldM Py.append results entries) ;;
                  pbar' <- update pbar 1 ;;
                  page_loop w fuel results' next_page' pbar')%M) st) as ->.
  { destruct url; try congruence; reflexivity. }
  unfold try_except_else. rewrite (get_pg_unpack_page w url obj next st Hr Hnext).
  unfold bind at 1. rewrite Hres. reflexivity.
Qed.

Lemma page_without_results_raises_witness :
  let st := requested (VStr ipr1_url) (initial_state ∅) in
  let pbar := {| bar_n := 1; bar_total := 2; bar_disable := true |} in
  page_loop no_results_world 5 (VList [rec_a; rec_b]) (VStr ipr1_next) pbar st
  = (Raised (KeyError (VStr "results")), requested (VStr ipr1_next) st) /\
  fst (get_query_from_interpro no_results_world 5 ipr1 (initial_state ∅))
  = Raised (KeyError (VStr "results")).
Proof.
  split.
  - apply (page_without_results_raises no_results_world 4 (VList [rec_a; rec_b])
             (VStr ipr1_next) (VDict [("count", VInt 3); ("next", VNone)]) VNone).
    + discriminate.
    + vm_compute. reflexivity.
    + vm_compute. reflexivity.
    + vm_compute. reflexivity.
  - vm_compute. reflexivity.
Defined.

(** With the bar disabled the loop only sleeps and requests: at most one
    request per unit of fuel. *)
Lemma page_loop_accounting (w : world) (fuel : nat) :
  forall (results next_page : value) (pbar : progress) (st : state),
    bar_disable pbar = true ->
    exists urls,
      length urls <= fuel /\
      snd (page_loop w fuel results next_page pbar st) = requested_all urls st.
Proof.
  induction fuel as [|fuel IH]; intros results next_page pbar st Hbar.
  - exists []. split; [reflexivity|]. destruct next_page; reflexivity.
  - assert (next_page = VNone \/ next_page <> VNone) as [->|Hurl]
      by (destruct next_page; (left; reflexivity) || (right; discriminate)).
    { exists []. split; [simpl; lia | reflexivity]. }
    assert (page_loop w (S fuel) results next_page pbar st
            = try_except_else
                (bind (get_pg w next_page) (fun r => lift (unpack r)))
                (page_loop w fuel results next_page pbar)
                (fun p =>
                   let '(new_obj, next_page') := p in
                   (new_results <- lift ((Ok new_obj).["results"])%py ;;
                    entries <- lift (Py.iter new_results) ;;
                    results' <- lift (foldM Py.append results entries) ;;
                    pbar' <- update pbar 1 ;;
                    page_loop w fuel results' next_page' pbar')%M) st) as ->.
    { destruct next_page; try congruence; reflexivity. }
    unfold try_except_else.
    pose proof (get_pg_unpack_state w next_page st) as Hst.
    destruct (bind (get_pg w next_page) (fun r => lift (unpack r)) st)
      as [[[new_obj next_page']|e|] st1]; simpl in Hst; subst st1.
    + unfold bind at 1.
      destruct ((Ok new_obj).["results"]%py) as [new_results|e]; simpl;
        [|exists [next_page]; split; [simpl; lia | reflexivity]].
      unfold bind at 1.
      destruct (Py.iter new_results) as [entries|e]; simpl;
        [|exists [next_page]; split; [simpl; lia | reflexivity]].
      unfold bind at 1.
      destruct (foldM Py.append results entries) as [results'|e]; simpl;
        [|exists [next_page]; split; [simpl; lia | reflexivity]].
      unfold bind at 1. unfold update. rewrite Hbar. simpl.
      destruct (IH results' next_page' pbar (requested next_page st) Hbar)
        as (urls & Hlen & Hurls).
      exists (next_page :: urls). split; [simpl; lia | exact Hurls].
    + destruct (IH results next_page pbar (requested next_page st) Hbar)
        as (urls & Hlen & Hurls).
      exists (next_page :: urls). split; [simpl; lia | exact Hurls].
    + exists [next_page]. split; [simpl; lia | reflexivity].
Qed.

(** A fetch as a whole: the first request, then the loop. *)
Lemma get_query_from_interpro_state (w : world) (fuel : nat) (hit_id : string)
    (st : state) :
  exists urls,
    length urls <= fuel /\
    snd (get_query_from_interpro w fuel hit_id st)
    = requested_all (VStr (base_url hit_id) :: urls) st.
Proof.
  unfold get_query_from_interpro.
  assert (forall (k : value * value -> M value),
            (forall p st1, exists urls,
                length urls <= fuel /\ snd (k p st1) = requested_all urls st1) ->
            exists urls,
              length urls <= fuel /\
              snd (bind (get_pg w (VStr (base_url hit_id)))
                     (fun r => bind (lift (unpack r)) k) st)
              = requested_all (VStr (base_url hit_id) :: urls) st) as Hfirst.
  { intros k Hk.
    pose proof (get_pg_unpack_state w (VStr (base_url hit_id)) st) as Hst.
    unfold bind in Hst |- *.
    destruct (get_pg w (VStr (base_url hit_id)) st) as [[r|e|] st1]; simpl in *.
    - destruct (unpack r) as [p|e]; simpl in *; subst st1.
      + destruct (Hk p (requested (VStr (base_url hit_id)) st)) as (urls & Hlen & H).
        exists urls. split; [exact Hlen|]. exact H.
      + exists []. split; [simpl; lia | reflexivity].
    - subst st1. exists []. split; [simpl; lia | reflexivity].
    - subst st1. exists []. split; [simpl; lia | reflexivity]. }
  apply Hfirst. intros [obj next_page] st1.
  unfold bind at 1.
  destruct (page_estimate obj) as [total|e]; simpl;
    [|exists []; split; [simpl; lia | reflexivity]].
  unfold bind at 1. unfold tqdm, TQDM_ON.
  destruct (tqdm_installed w); simpl; [|exists []; split; [simpl; lia | reflexivity]].
  unfold bind at 1.
  destruct ((Ok obj).["results"]%py) as [results|e]; simpl;
    [|exists []; split; [simpl; lia | reflexivity]].
  apply page_loop_accounting. reflexivity.
Qed.

(** X3. What a fetch costs and what it leaves alone.  Whatever the service
    answers and however the fetch ends, [get_query_from_interpro] sends at
    least one and at most [fuel + 1] requests, the first one to the address
    of the entry, sleeps one second right before each of them, and records
    nothing else: it prints nothing, draws no progress bar and touches no
    file. *)
Theorem fetch_accounting (w : world) (fuel : nat) (hit_id : string) (st : state) :
  let r := get_query_from_interpro w fuel hit_id st in
  exists urls,
    length urls <= fuel /\
    requests (snd r) = S (requests st + length urls) /\
    files (snd r) = files st /\
    trace (snd r)
    = trace st ++ flat_map (fun url => [EvSleep 1; EvGet url])
                           (VStr (base_url hit_id) :: urls).
Proof.
  simpl.
  destruct (get_query_from_interpro_state w fuel hit_id st) as (urls & Hlen & Hst).
  exists urls. rewrite Hst. split; [exact Hlen|].
  rewrite requested_all_requests, requested_all_files, requested_all_trace.
  simpl. repeat split. lia.
Qed.

(** ** The filter stage: pages and bad records *)

(** X4. Filtering goes through concatenation: the accumulated list of two
    batches of records passes the filter exactly when each batch does, and
    the output is then the output of the first batch followed by that of
    the second.  Filtering the pages one by one would give what filtering
    the whole fetch gives. *)
Theorem process_interpro_obj_app (l1 l2 : list value) (tax_to_keep : gset Z)
    (out : list Protein) :
  process_interpro_obj (VList (l1 ++ l2)) tax_to_keep = Ok out <->
  exists out1 out2,
    process_interpro_obj (VList l1) tax_to_keep = Ok out1 /\
    process_interpro_obj (VList l2) tax_to_keep = Ok out2 /\
    out = out1 ++ out2.
Proof.
  unfold process_interpro_obj. simpl. rewrite foldM_app. split.
  - intros H. apply rbind_Ok in H as (out1 & H1 & H2).
    apply fold_process_Ok in H2 as (ps2 & Hps2 & ->).
    exists out1, (filter (fun p => prot_tax p ∈ tax_to_keep) ps2).
    split; [exact H1|]. split; [|reflexivity].
    apply (fold_process_raw tax_to_keep l2 ps2 [] Hps2).
  - intros (out1 & out2 & H1 & H2 & ->). rewrite H1. simpl.
    apply fold_process_Ok in H2 as (ps2 & Hps2 & ->). simpl.
    apply (fold_process_raw tax_to_keep l2 ps2 out1 Hps2).
Qed.

Example process_interpro_obj_app_sample :
  process_interpro_obj (VList ([rec_a; rec_b] ++ [rec_c])) planctomycetes
  = Ok ([prot_a] ++ [prot_c]).
Proof.
  apply process_interpro_obj_app. exists [prot_a], [prot_c].
  repeat split; vm_compute; reflexivity.
Qed.

(** X5. The exception that comes out of [process_interpro_obj] is the one
    of the first record that cannot be read: the records before it are
    read in full, the records after it are not looked at, and what was
    kept so far is dropped. *)
Theorem process_interpro_obj_first_bad_record (pre post : list value) (ps : list Protein)
    (r : value) (e : exn) (tax_to_keep : gset Z) :
  Forall2 raw_record pre ps ->
  extract r = Raise e ->
  process_interpro_obj (VList (pre ++ r :: post)) tax_to_keep = Raise e.
Proof.
  intros Hpre He. unfold process_interpro_obj. simpl. rewrite foldM_app.
  rewrite (fold_process_raw tax_to_keep pre ps [] Hpre). simpl.
  rewrite (process_record_Raise tax_to_keep _ r e He). reflexivity.
Qed.

Lemma process_interpro_obj_first_bad_record_witness :
  Forall2 raw_record [rec_a] [prot_a] /\
  extract rec_b_no_length = Raise (KeyError (VStr "length")) /\
  process_interpro_obj (VList ([rec_a] ++ rec_b_no_length :: [VNone])) planctomycetes
  = Raise (KeyError (VStr "length")).
Proof.
  assert (Forall2 raw_record [rec_a] [prot_a]) as Hpre
    by (repeat constructor; apply extract_Ok; vm_compute; reflexivity).
  assert (extract rec_b_no_length = Raise (KeyError (VStr "length"))) as He
    by (vm_compute; reflexivity).
  split; [exact Hpre|]. split; [exact He|].
  exact (process_interpro_obj_first_bad_record [rec_a] [VNone] [prot_a] rec_b_no_length
           _ planctomycetes Hpre He).
Defined.

(** ** The command line and the imports *)

(** X6. What the command line accepts.  The arguments are accepted exactly
    when there are at least three of them after the name of the script and
    the first reads as an integer; the root id is that integer, the domain
    id the second argument, and the output directory is always ["./"].
    Whatever goes wrong in the [try] block, the exception that comes out is
    the [TypeError] of [raise] on a string. *)
Theorem parse_args_accepts (argv : list string) :
  (forall tax_id query_dom_id save_to_dir,
     parse_args argv = Ok (tax_id, query_dom_id, save_to_dir) <->
     4 <= length argv /\
     (exists a1, nth_error argv 1 = Some a1 /\ Py.int (VStr a1) = Ok tax_id) /\
     nth_error argv 2 = Some query_dom_id /\
     save_to_dir = "./") /\
  (forall e, parse_args argv = Raise e -> e = TypeError).
Proof.
  split.
  - intros tax_id query_dom_id save_to_dir. unfold parse_args, argv_get.
    destruct argv as [|a0 [|a1 [|a2 [|a3 rest]]]];
      cbn [nth_error rbind length Nat.eqb]; split;
      try discriminate; try (intros (Hlen & _); simpl in Hlen; lia).
    + destruct (Py.int (VStr a1)); discriminate.
    + destruct (Py.int (VStr a1)); discriminate.
    + destruct (Py.int (VStr a1)) as [t|e] eqn:Hint; cbn [rbind]; [|discriminate].
      intros [= <- <- <-]. split; [simpl; lia|]. split; [exists a1; auto|].
      split; reflexivity.
    + intros (_ & (a1' & [= <-] & Hint) & [= <-] & ->). rewrite Hint. reflexivity.
  - intros e. unfold parse_args.
    destruct (rbind (argv_get argv 1) _) as [args|e']; [discriminate|].
    intros [= <-]. reflexivity.
Qed.

Example parse_args_samples :
  map parse_args [["s.py"]; ["s.py"; "two"; "IPR000001"; "out/"];
                  ["s.py"; " 1_224 "; "IPR000001"; "out/"; "more"]]
  = [Raise TypeError; Raise TypeError; Ok (1224%Z, "IPR000001", "./")].
Proof. vm_compute. reflexivity. Qed.

(** X7. How the program starts.  An interpreter older than Python 3.6
    cannot compile the file, so nothing runs.  On the others the version
    test of line 12 never stops the script, although its message asks for
    Python 3.8: once [dataclasses] and [requests] are imported, the script
    stops on ete3 when it is missing, before anything is printed or asked;
    otherwise, the taxonomy opened, it reads its arguments and runs [main]
    on them, after the notice about tqdm when it is missing. *)
Theorem program_startup (w : world) (fuel : nat) (argv : list string) (st : state) :
  (compiles (version_info w) = false ->
   program w fuel argv st = (Raised SyntaxError, st)) /\
  (compiles (version_info w) = true ->
   import_dataclasses w = Ok tt ->
   import_requests w = Ok tt ->
   (ete3_installed w = false -> program w fuel argv st = (Raised TypeError, st)) /\
   (ete3_installed w = true ->
    ncbi_taxa w = Ok tt ->
    exists st0,
      (if tqdm_installed w then st0 = st
       else requests st0 = requests st /\ files st0 = files st /\
            exists notice, trace st0 = trace st ++ [EvPrint notice]) /\
      program w fuel argv st
      = match parse_args argv with
        | Ok (tax_id, query_dom_id, save_to_dir) =>
            main w fuel tax_id query_dom_id save_to_dir st0
        | Raise e => (Raised e, st0)
        end)).
Proof.
  unfold program, module_init. destruct (version_info w) as [major minor].
  split.
  - intros Hold. rewrite Hold. reflexivity.
  - intros Hnew Hdataclasses Hrequests. rewrite Hnew.
    assert ((3 <=? major)%Z = true) as Hmajor.
    { unfold compiles in Hnew. apply orb_true_iff in Hnew as [H|H].
      - apply Z.ltb_lt in H. apply Z.leb_le. lia.
      - apply andb_true_iff in H as [H _]. apply Z.eqb_eq in H. apply Z.leb_le. lia. }
    rewrite Hmajor, Hdataclasses, Hrequests. cbn [negb andb lift].
    split.
    + intros Hete. rewrite Hete. reflexivity.
    + intros Hete Hncbi. rewrite Hete, Hncbi. cbn [negb lift].
      destruct (tqdm_installed w).
      * exists st. split; [reflexivity|]. unfold bind. simpl.
        destruct (parse_args argv) as [[[t d] o]|e]; reflexivity.
      * eexists. split; [|unfold bind; simpl;
                          destruct (parse_args argv) as [[[t d] o]|e]; reflexivity].
        simpl. repeat split. eexists. reflexivity.
Qed.

Lemma program_startup_witness :
  program (world_of_version (2, 7)%Z) 3 ["s.py"; "2"; ipr1; "out/"] (initial_state ∅)
  = (Raised SyntaxError, initial_state ∅) /\
  exists st0,
    st0 = initial_state ∅ /\
    program (world_of_version (3, 7)%Z) 3 ["s.py"; "2"; ipr1; "out/"] (initial_state ∅)
    = main (world_of_version (3, 7)%Z) 3 2 ipr1 "./" st0.
Proof.
  split.
  - apply (proj1 (program_startup (world_of_version (2, 7)%Z) 3
                    ["s.py"; "2"; ipr1; "out/"] (initial_state ∅))).
    reflexivity.
  - destruct (proj2 (program_startup (world_of_version (3, 7)%Z) 3
                       ["s.py"; "2"; ipr1; "out/"] (initial_state ∅))
                eq_refl eq_refl eq_refl) as [_ Hrun].
    destruct (Hrun eq_refl eq_refl) as (st0 & Hst0 & Hprogram).
    exists st0. split; [exact Hst0|]. exact Hprogram.
Defined.

(** ** The cache file *)

Lemma keeps_refl (path : string) (st : state) : keeps path st st.
Proof. reflexivity. Qed.

Lemma keeps_trans (path : string) (st1 st2 st3 : state) :
  keeps path st1 st2 -> keeps path st2 st3 -> keeps path st1 st3.
Proof. unfold keeps. congruence. Qed.

Lemma keeps_emit (path : string) (e : event) (st : state) :
  True -> keeps path st {| requests := requests st; files := files st;
                           trace := trace st ++ [e] |}.
Proof. reflexivity. Qed.

Lemma list_ascii_of_append (s t : string) :
  list_ascii_of_string (s +:+ t) = list_ascii_of_string s ++ list_ascii_of_string t.
Proof. induction s as [|x s IH]; simpl; [reflexivity|]. f_equal. exact IH. Qed.

(** The drawing and the cache never have the same name: one ends in
    [.pdf], the other in [.pkl]. *)
Lemma render_path_not_cache (save_to_dir queried_dom query_dom_id : string)
    (main_tax_id tax_id : Z) :
  render_path save_to_dir queried_dom main_tax_id <> cache_path tax_id query_dom_id.
Proof.
  assert (render_path save_to_dir queried_dom main_tax_id
          = (save_to_dir +:+ queried_dom +:+ "_in_" +:+ pretty main_tax_id) +:+ ".pdf") as ->
    by (unfold render_path; rewrite !append_assoc; reflexivity).
  assert (cache_path tax_id query_dom_id
          = ("ip_obj_" +:+ pretty tax_id +:+ "_" +:+ query_dom_id) +:+ ".pkl") as ->
    by (unfold cache_path; rewrite !append_assoc; reflexivity).
  intros H. apply (f_equal list_ascii_of_string) in H.
  rewrite !list_ascii_of_append in H.
  apply app_inj_2 in H as [_ H]; [discriminate H | reflexivity].
Qed.

(** Drawing and the last message leave the cache file alone. *)
Lemma draw_keeps_cache (w : world) (ps : list Protein) (tax_id : Z)
    (query_dom_id save_to_dir : string) (st : state) :
  files (snd ((call "make_tree" (make_tree w ps tax_id query_dom_id save_to_dir) ;;;
               emit (EvPrint "Finished script."))%M st))
    !! cache_path tax_id query_dom_id
  = files st !! cache_path tax_id query_dom_id.
Proof.
  set (path := cache_path tax_id query_dom_id).
  apply (preserves_bind (keeps path) (keeps_trans path)).
  - apply (preserves_call (keeps path) (fun _ => True) (keeps_trans path) (keeps_emit path));
      [exact I|].
    apply (preserves_make_tree (keeps path) (fun _ => True) (keeps_refl path)
             (keeps_trans path) (keeps_emit path)); [intros; exact I | exact I |].
    intros t st0. apply lookup_insert_ne, render_path_not_cache.
  - intros _. apply (preserves_emit (keeps path) (fun _ => True) (keeps_emit path)). exact I.
Qed.

(** Without the cache file, [main] goes from the test of line 179 to the
    fetch. *)
Lemma main_not_cached (w : world) (fuel : nat) (tax_id : Z)
    (query_dom_id save_to_dir : string) (st : state) (descendents : gset Z) :
  files st !! cache_path tax_id query_dom_id = None ->
  descendant_taxa w tax_id = Ok descendents ->
  main w fuel tax_id query_dom_id save_to_dir st
  = (process_itrpro_obj <-
       (itrpro_obj <- call "get_query_from_interpro"
                        (get_query_from_interpro w fuel query_dom_id) ;;
        process_itrpro_obj <- call "process_interpro_obj"
                                (lift (process_interpro_obj itrpro_obj descendents)) ;;
        pickle_dump w (cache_path tax_id query_dom_id) process_itrpro_obj ;;;
        ret process_itrpro_obj) ;;
     call "make_tree" (make_tree w process_itrpro_obj tax_id query_dom_id save_to_dir) ;;;
     emit (EvPrint "Finished script."))%M
      {| requests := requests st;
         files := files st;
         trace := trace st ++ [EvTaxa tax_id; EvExists (cache_path tax_id query_dom_id)] |}.
Proof.
  intros Hfile Hdesc. unfold main.
  unfold bind at 1. rewrite emit_run.
  unfold bind at 1. rewrite Hdesc. cbn [lift ret].
  unfold bind at 1. unfold os_path_exists at 1. unfold bind at 1. rewrite emit_run.
  cbn [files trace requests].
  rewrite Hfile. rewrite bool_decide_eq_false_2 by (intros [c Hc]; discriminate).
  rewrite <- app_assoc. reflexivity.
Qed.

Lemma call_run {A} (f : string) (body : M A) (st : state) :
  call f body st
  = body {| requests := requests st; files := files st; trace := trace st ++ [EvCall f] |}.
Proof. unfold call, bind. rewrite emit_run. reflexivity. Qed.

(** Line 185 case by case. *)
Lemma pickle_dump_run (w : world) (path : string) (ps : list Protein) (st : state) :
  pickle_dump w path ps st
  = match file_write w path ps with
    | Written =>
        (Done tt, {| requests := requests st;
                     files := <[path := Pickled ps]> (files st);
                     trace := trace st ++ [EvDump path ps] |})
    | NotOpened e =>
        (Raised e, {| requests := requests st;
                      files := files st;
                      trace := trace st ++ [EvDump path ps] |})
    | Broken e =>
        (Raised e, {| requests := requests st;
                      files := <[path := Unreadable]> (files st);
                      trace := trace st ++ [EvDump path ps] |})
    end.
Proof.
  unfold pickle_dump, bind. rewrite emit_run.
  destruct (file_write w path ps); reflexivity.
Qed.

(** X8. When the cache file is written.  On a run without cache file, once
    the descendants are resolved, the cache file holds a list only when the
    fetch returns, the filter accepts what it returned and the file can be
    written, and the list is then the output of the filter, whatever
    becomes of the drawing afterwards.  A fetch that raises or runs on, a
    record that cannot be read, a file that cannot be opened: the cache
    file still does not exist.  A writing that fails after the file was
    opened leaves a file that is no cache. *)
Theorem cache_written_after_success (w : world) (fuel : nat) (tax_id : Z)
    (query_dom_id save_to_dir : string) (st : state) (descendents : gset Z) :
  descendant_taxa w tax_id = Ok descendents ->
  files st !! cache_path tax_id query_dom_id = None ->
  let st0 :=
    {| requests := requests st;
       files := files st;
       trace := trace st ++ [EvTaxa tax_id; EvExists (cache_path tax_id query_dom_id);
                             EvCall "get_query_from_interpro"] |} in
  files (snd (main w fuel tax_id query_dom_id save_to_dir st))
    !! cache_path tax_id query_dom_id
  = match fst (get_query_from_interpro w fuel query_dom_id st0) with
    | Done itrpro_obj =>
        match process_interpro_obj itrpro_obj descendents with
        | Ok ps =>
            match file_write w (cache_path tax_id query_dom_id) ps with
            | Written => Some (Pickled ps)
            | NotOpened _ => None
            | Broken _ => Some Unreadable
            end
        | Raise _ => None
        end
    | _ => None
    end.
Proof.
  intros Hdesc Hfile. simpl.
  rewrite (main_not_cached w fuel tax_id query_dom_id save_to_dir st descendents
             Hfile Hdesc).
  unfold bind at 1. unfold bind at 1. rewrite call_run.
  cbn [files trace requests]. rewrite <- app_assoc.
  change ([EvTaxa tax_id; EvExists (cache_path tax_id query_dom_id)] ++
          [EvCall "get_query_from_interpro"])
    with [EvTaxa tax_id; EvExists (cache_path tax_id query_dom_id);
          EvCall "get_query_from_interpro"].
  destruct (get_query_from_interpro_state w fuel query_dom_id
              {| requests := requests st; files := files st;
                 trace := trace st ++ [EvTaxa tax_id;
                                       EvExists (cache_path tax_id query_dom_id);
                                       EvCall "get_query_from_interpro"] |})
    as (urls & _ & Hst).
  destruct (get_query_from_interpro w fuel query_dom_id _) as [[v|e|] st1];
    cbn [fst snd] in Hst |- *; subst st1;
    try (rewrite requested_all_files; exact Hfile).
  unfold bind at 1. rewrite call_run.
  destruct (process_interpro_obj v descendents) as [ps|e]; cbn [lift ret raise].
  - unfold bind at 1. rewrite pickle_dump_run. cbn [requests files trace].
    destruct (file_write w (cache_path tax_id query_dom_id) ps) as [|e|e].
    + unfold ret at 1. cbv beta iota.
      rewrite draw_keeps_cache. cbn [files]. apply lookup_insert_eq.
    + cbn [snd files]. rewrite requested_all_files. exact Hfile.
    + cbn [snd files]. apply lookup_insert_eq.
  - cbn [snd files]. rewrite requested_all_files. exact Hfile.
Qed.

Lemma cache_written_after_success_witness :
  descendant_taxa two_page_world 2 = Ok planctomycetes /\
  files (initial_state ∅) !! cache_path 2 ipr1 = None /\
  files (snd (main two_page_world 4 2 ipr1 "./" (initial_state ∅))) !! cache_path 2 ipr1
  = Some (Pickled [prot_a; prot_c]) /\
  files (snd (main down_after_first_world 4 2 ipr1 "./" (initial_state ∅)))
    !! cache_path 2 ipr1
  = None /\
  files (snd (main read_only_world 4 2 ipr1 "./" (initial_state ∅))) !! cache_path 2 ipr1
  = None.
Proof.
  assert (files (initial_state ∅) !! cache_path 2 ipr1 = None) as Hfile
    by apply lookup_empty.
  split; [reflexivity|]. split; [exact Hfile|]. split; [|split].
  - rewrite (cache_written_after_success two_page_world 4 2 ipr1 "./" (initial_state ∅)
               planctomycetes eq_refl Hfile).
    vm_compute. reflexivity.
  - rewrite (cache_written_after_success down_after_first_world 4 2 ipr1 "./"
               (initial_state ∅) planctomycetes eq_refl Hfile).
    vm_compute. reflexivity.
  - rewrite (cache_written_after_success read_only_world 4 2 ipr1 "./"
               (initial_state ∅) planctomycetes eq_refl Hfile).
    vm_compute. reflexivity.
Defined.

(** A run over an existing cache file records nothing of the fetch and
    filter stages and counts no request. *)
Lemma main_cached_quiet (w : world) (fuel : nat) (tax_id : Z)
    (query_dom_id save_to_dir : string) (st : state) (c : file) :
  files st !! cache_path tax_id query_dom_id = Some c ->
  quiet st (snd (main w fuel tax_id query_dom_id save_to_dir st)).
Proof.
  intros Hfile. destruct (descendant_taxa w tax_id) as [descendents|e] eqn:Hdesc.
  - rewrite (main_cached w fuel tax_id query_dom_id save_to_dir st c descendents
               Hfile Hdesc).
    eapply quiet_trans; [|apply (preserves_bind quiet quiet_trans)].
    + split; [|reflexivity].
      exists [EvTaxa tax_id; EvExists (cache_path tax_id query_dom_id)].
      split; [reflexivity | repeat constructor].
    + apply (preserves_pickle_load quiet no_fetch_no_filter quiet_refl quiet_trans
               quiet_emit). reflexivity.
    + intros ps. apply (preserves_bind quiet quiet_trans).
      * apply (preserves_call quiet no_fetch_no_filter quiet_trans quiet_emit);
          [reflexivity|].
        apply (preserves_make_tree quiet no_fetch_no_filter quiet_refl quiet_trans
                 quiet_emit); [intros t; reflexivity | reflexivity | intros t st0].
        apply quiet_same_trace.
      * intros _. apply (preserves_emit quiet no_fetch_no_filter quiet_emit).
        reflexivity.
  - unfold main. unfold bind at 1. rewrite emit_run.
    unfold bind at 1. rewrite Hdesc. simpl.
    apply quiet_emit. reflexivity.
Qed.

(** A run that finishes has its list of proteins in the cache file. *)
Lemma main_Done_cache (w : world) (fuel : nat) (tax_id : Z)
    (query_dom_id save_to_dir : string) (st st1 : state) :
  main w fuel tax_id query_dom_id save_to_dir st = (Done tt, st1) ->
  exists ps, files st1 !! cache_path tax_id query_dom_id = Some (Pickled ps).
Proof.
  intros Hrun.
  destruct (descendant_taxa w tax_id) as [descendents|e] eqn:Hdesc.
  2:{ unfold main in Hrun. unfold bind at 1 in Hrun. rewrite emit_run in Hrun.
      unfold bind at 1 in Hrun. rewrite Hdesc in Hrun. discriminate Hrun. }
  destruct (files st !! cache_path tax_id query_dom_id) as [c|] eqn:Hfile.
  - rewrite (main_cached w fuel tax_id query_dom_id save_to_dir st c descendents
               Hfile Hdesc) in Hrun.
    apply bind_Done in Hrun as (ps & s3 & Hload & Hdraw).
    unfold pickle_load in Hload.
    apply bind_Done in Hload as ([] & s2 & Hemit & Hload).
    rewrite emit_run in Hemit. injection Hemit as <-. cbn [files] in Hload.
    rewrite Hfile in Hload. destruct c as [ps'| |t]; [|discriminate|discriminate].
    injection Hload as -> <-.
    exists ps.
    pose proof (draw_keeps_cache w ps tax_id query_dom_id save_to_dir
                  {| requests := requests st; files := files st;
                     trace := (trace st ++ [EvTaxa tax_id;
                                            EvExists (cache_path tax_id query_dom_id)])
                              ++ [EvLoad (cache_path tax_id query_dom_id)] |}) as Hsame.
    rewrite Hdraw in Hsame. cbn [snd files] in Hsame. rewrite Hsame. exact Hfile.
  - rewrite (main_not_cached w fuel tax_id query_dom_id save_to_dir st descendents
               Hfile Hdesc) in Hrun.
    apply bind_Done in Hrun as (ps & s5 & Hfetch & Hdraw).
    apply bind_Done in Hfetch as (v & s3 & _ & Hfilter).
    apply bind_Done in Hfilter as (ps' & s4 & _ & Hdump).
    apply bind_Done in Hdump as ([] & s4' & Hdump & Hret).
    injection Hret as -> <-.
    rewrite pickle_dump_run in Hdump.
    destruct (file_write w (cache_path tax_id query_dom_id) ps) as [|e|e];
      [|discriminate Hdump|discriminate Hdump].
    injection Hdump as <-.
    exists ps.
    pose proof (draw_keeps_cache w ps tax_id query_dom_id save_to_dir
                  {| requests := requests s4;
                     files := <[cache_path tax_id query_dom_id := Pickled ps]> (files s4);
                     trace := trace s4 ++ [EvDump (cache_path tax_id query_dom_id) ps] |})
      as Hsame.
    rewrite Hdraw in Hsame. cbn [snd files] in Hsame. rewrite Hsame.
    apply lookup_insert_eq.
Qed.

(** X9. A run that finishes pays for the next ones: whether its list came
    from the cache or from the service, once [main] has finished the cache
    file of the pair holds a list of proteins, and any later run of [main]
    on the same pair, whatever its fuel and its output directory, counts no
    request and records nothing of the fetch and filter stages. *)
Theorem finished_run_leaves_cache (w : world) (fuel : nat) (tax_id : Z)
    (query_dom_id save_to_dir : string) (st st1 : state) :
  main w fuel tax_id query_dom_id save_to_dir st = (Done tt, st1) ->
  exists ps,
    files st1 !! cache_path tax_id query_dom_id = Some (Pickled ps) /\
    forall fuel' save_to_dir',
      let r := main w fuel' tax_id query_dom_id save_to_dir' st1 in
      requests (snd r) = requests st1 /\
      exists evs,
        trace (snd r) = trace st1 ++ evs /\
        Forall (fun e => fetch_or_filter e = false) evs.
Proof.
  intros Hrun.
  destruct (main_Done_cache w fuel tax_id query_dom_id save_to_dir st st1 Hrun)
    as (ps & Hfile).
  exists ps. split; [exact Hfile|].
  intros fuel' save_to_dir'. simpl.
  destruct (main_cached_quiet w fuel' tax_id query_dom_id save_to_dir' st1 (Pickled ps)
              Hfile) as [Hevs Hreq].
  split; [exact Hreq | exact Hevs].
Qed.

Lemma finished_run_leaves_cache_witness :
  let st1 := snd (main hiccup_world 4 2 ipr1 "./" (initial_state ∅)) in
  main hiccup_world 4 2 ipr1 "./" (initial_state ∅) = (Done tt, st1) /\
  requests st1 = 3 /\
  exists ps,
    files st1 !! cache_path 2 ipr1 = Some (Pickled ps) /\
    forall fuel' save_to_dir',
      let r := main hiccup_world fuel' 2 ipr1 save_to_dir' st1 in
      requests (snd r) = requests st1 /\
      exists evs,
        trace (snd r) = trace st1 ++ evs /\
        Forall (fun e => fetch_or_filter e = false) evs.
Proof.
  assert (main hiccup_world 4 2 ipr1 "./" (initial_state ∅)
          = (Done tt, snd (main hiccup_world 4 2 ipr1 "./" (initial_state ∅)))) as Hrun.
  { assert (fst (main hiccup_world 4 2 ipr1 "./" (initial_state ∅)) = Done tt) as Hdone
      by (vm_compute; reflexivity).
    destruct (main hiccup_world 4 2 ipr1 "./" (initial_state ∅)) as [o s].
    simpl in Hdone. subst o. reflexivity. }
  split; [exact Hrun|]. split; [vm_compute; reflexivity|].
  exact (finished_run_leaves_cache hiccup_world 4 2 ipr1 "./" (initial_state ∅) _ Hrun).
Defined.

(** ** The name of the cache file *)

Lemma no_underscore_pretty_N_go (x : N) :
  forall s, no_underscore s -> no_underscore (pretty_N_go x s).
Proof.
  induction (N.lt_wf_0 x) as [x _ IH]. intros s Hs.
  assert (x = 0 \/ 0 < x)%N as [->|Hx] by lia.
  - rewrite pretty_N_go_0. exact Hs.
  - rewrite pretty_N_go_step by exact Hx. apply IH.
    + apply N.div_lt; [exact Hx | reflexivity].
    + split; [|exact Hs]. unfold pretty_N_char. repeat case_match; discriminate.
Qed.

Lemma no_underscore_pretty_Z (z : Z) : no_underscore (pretty z).
Proof.
  assert (forall p : positive, no_underscore (pretty p)) as Hpos.
  { intros p. unfold pretty, pretty_positive, pretty, pretty_N.
    case_decide; [simpl; split; [discriminate | exact I]|].
    apply no_underscore_pretty_N_go. exact I. }
  destruct z as [|p|p].
  - simpl. split; [discriminate | exact I].
  - apply Hpos.
  - change (no_underscore (String "-" (pretty p))).
    split; [discriminate | apply Hpos].
Qed.

(** Two names cut at their first [_] have the same parts. *)
Lemma append_underscore_inj (a b x y : string) :
  no_underscore a -> no_underscore b ->
  a +:+ String "_" x = b +:+ String "_" y -> a = b /\ x = y.
Proof.
  revert b. induction a as [|c a IH]; intros [|c' b] Ha Hb H; simpl in *.
  - injection H as ->. auto.
  - injection H as <- _. destruct Hb as [Hc _]. congruence.
  - injection H as -> _. destruct Ha as [Hc _]. congruence.
  - injection H as -> H. destruct Ha as [_ Ha], Hb as [_ Hb].
    destruct (IH b Ha Hb H) as [-> ->]. auto.
Qed.

Lemma append_inv_tail (a b c : string) : a +:+ c = b +:+ c -> a = b.
Proof.
  intros H.
  assert (forall s t, list_ascii_of_string (s +:+ t)
                      = list_ascii_of_string s ++ list_ascii_of_string t) as Happ.
  { intros s t. induction s as [|x s IH]; simpl; [reflexivity|]. f_equal. exact IH. }
  apply (f_equal list_ascii_of_string) in H. rewrite !Happ in H.
  apply app_inv_tail in H.
  rewrite <- (string_of_list_ascii_of_string a), <- (string_of_list_ascii_of_string b).
  rewrite H. reflexivity.
Qed.

(** X10. One cache file per pair: two runs use the same cache file only
    when they have the same root id and the same domain id, so the list
    cached for one pair is never served for another. *)
Theorem cache_path_inj (tax_id tax_id' : Z) (query_dom_id query_dom_id' : string) :
  cache_path tax_id query_dom_id = cache_path tax_id' query_dom_id' ->
  tax_id = tax_id' /\ query_dom_id = query_dom_id'.
Proof.
  unfold cache_path. intros H. simpl in H. injection H as H.
  apply append_underscore_inj in H as [Htax Hdom];
    [|apply no_underscore_pretty_Z|apply no_underscore_pretty_Z].
  split.
  - apply (inj pretty). exact Htax.
  - apply (append_inv_tail _ _ ".pkl"). exact Hdom.
Qed.

Lemma cache_path_inj_witness :
  cache_path 2 ipr1 = cache_path (1 + 1) "IPR000001" /\
  2%Z = (1 + 1)%Z /\ ipr1 = "IPR000001".
Proof.
  assert (cache_path 2 ipr1 = cache_path (1 + 1) "IPR000001") as H by reflexivity.
  split; [exact H|].
  exact (cache_path_inj 2 (1 + 1) ipr1 "IPR000001" H).
Defined.

Example cache_path_tells_apart :
  cache_path 2 "1_IPR000001" <> cache_path 21 "IPR000001" /\
  cache_path 2 "1_IPR000001" = "ip_obj_2_1_IPR000001.pkl" /\
  cache_path 21 "IPR000001" = "ip_obj_21_IPR000001.pkl".
Proof. vm_compute. repeat split; try reflexivity. discriminate. Qed.

(** ** The tree stage: what [gen_tree] attaches *)

Lemma appended_refl (t : tree) : appended (fun _ => []) t t.
Proof.
  intros name. destruct (t !! name); simpl; [rewrite app_nil_r|]; reflexivity.
Qed.

Lemma appended_trans (f g : string -> list annotation) (t1 t2 t3 : tree) :
  appended f t1 t2 -> appended g t2 t3 ->
  appended (fun name => f name ++ g name) t1 t3.
Proof.
  intros H1 H2 name. rewrite H2, H1.
  destruct (t1 !! name); simpl; [rewrite app_assoc|]; reflexivity.
Qed.

Lemma appended_ext (f g : string -> list annotation) (t t' : tree) :
  (forall name, f name = g name) -> appended f t t' -> appended g t t'.
Proof. intros Hfg H name. rewrite H. destruct (t !! name); simpl; [rewrite Hfg|]; reflexivity. Qed.

Lemma attach_Ok (t t' : tree) (name : string) (a : annotation) :
  attach t name a = Ok t' <->
  exists node, t !! name = Some node /\ t' = <[name := node ++ [a]]> t.
Proof.
  unfold attach. destruct (t !! name) as [node|]; split.
  - intros [= <-]. exists node. auto.
  - intros (node' & [= <-] & ->). reflexivity.
  - discriminate.
  - intros (node' & [=] & _).
Qed.

Lemma attach_appended (t t' : tree) (name : string) (a : annotation) :
  attach t name a = Ok t' ->
  appended (fun name' => if decide (name = name') then [a] else []) t t'.
Proof.
  intros H. apply attach_Ok in H as (node & Hnode & ->). intros name'.
  rewrite lookup_insert. case_decide as Hname.
  - subst name'. rewrite Hnode. reflexivity.
  - destruct (t !! name'); simpl; [rewrite app_nil_r|]; reflexivity.
Qed.

Lemma attach_is_Some (t : tree) (name : string) (a : annotation) :
  is_Some (t !! name) -> exists t', attach t name a = Ok t'.
Proof. intros [node Hnode]. unfold attach. rewrite Hnode. eauto. Qed.

(** The nodes stay the same. *)
Lemma appended_is_Some (f : string -> list annotation) (t t' : tree) (name : string) :
  appended f t t' -> (is_Some (t' !! name) <-> is_Some (t !! name)).
Proof. intros H. rewrite H. apply fmap_is_Some. Qed.

(** One protein in the first loop. *)
Lemma add_protein_Ok (w : world) (queried_dom : string) (t t' : tree)
    (d d' : list (Z * list value)) (p : Protein) :
  add_protein w queried_dom (t, d) p = Ok (t', d') ->
  d' = record_acc d (prot_tax p) (prot_acc p) /\
  appended (fun name => if decide (pretty (prot_tax p) = name)
                        then protein_faces queried_dom p else []) t t'.
Proof.
  unfold add_protein, new_SeqMotifFace. intros H.
  apply rbind_Ok in H as ([seq motifs] & Hseq & H).
  apply rbind_Ok in H as (seqFace & Hface & H).
  apply rbind_Ok in Hface as ([] & _ & [= <-]).
  apply rbind_Ok in H as (t1 & H1 & H).
  apply rbind_Ok in H as (t2 & H2 & [= <- <-]).
  split; [reflexivity|].
  apply attach_appended in H1, H2.
  eapply appended_ext; [|exact (appended_trans _ _ _ _ _ H1 H2)].
  intros name. simpl. unfold protein_faces. rewrite Hseq.
  case_decide; reflexivity.
Qed.

Lemma proteins_of_cons (name : string) (p : Protein) (ps : list Protein) :
  proteins_of name (p :: ps)
  = if decide (pretty (prot_tax p) = name) then p :: proteins_of name ps
    else proteins_of name ps.
Proof. unfold proteins_of. rewrite filter_cons. reflexivity. Qed.

(** The first loop: the faces of each protein go to its node, and the
    accessions to the dictionary. *)
Lemma add_proteins_Ok (w : world) (queried_dom : string) (ps : list Protein) :
  forall (t t' : tree) (d d' : list (Z * list value)),
    foldM (add_protein w queried_dom) (t, d) ps = Ok (t', d') ->
    d' = group_accs d ps /\
    appended (fun name => flat_map (protein_faces queried_dom) (proteins_of name ps)) t t'.
Proof.
  induction ps as [|p ps IH]; intros t t' d d'; simpl.
  - intros [= <- <-]. split; [reflexivity | apply appended_refl].
  - intros H. apply rbind_Ok in H as ([t1 d1] & Hp & H).
    apply add_protein_Ok in Hp as [-> Hp].
    apply IH in H as [-> H]. split; [reflexivity|].
    eapply appended_ext; [|exact (appended_trans _ _ _ _ _ Hp H)].
    intros name. simpl. rewrite proteins_of_cons.
    case_decide; [|reflexivity]. simpl. reflexivity.
Qed.

(** One taxon in the second loop. *)
Lemma add_features_Ok (t t' : tree) (entry : Z * list value) :
  add_features t entry = Ok t' ->
  appended (fun name => if decide (pretty (fst entry) = name)
                        then taxon_features (snd entry) else []) t t'.
Proof.
  destruct entry as [tax accs]. unfold add_features. intros H.
  apply rbind_Ok in H as (t1 & H1 & H).
  apply attach_appended in H1.
  assert (exists v, attach t1 (pretty tax) (AddFeature "prot_acc" v) = Ok t' /\
                    taxon_features accs
                    = [AddFeature "num_prots" (VInt (Z.of_nat (length accs)));
                       AddFeature "prot_acc" v]) as (v & H2 & Hfeat).
  { unfold taxon_features. destruct accs as [|acc [|acc' accs]].
    - apply rbind_Ok in H as (joined & Hj & H). rewrite Hj. eauto.
    - eauto.
    - apply rbind_Ok in H as (joined & Hj & H). rewrite Hj. eauto. }
  apply attach_appended in H2.
  eapply appended_ext; [|exact (appended_trans _ _ _ _ _ H1 H2)].
  intros name. simpl. rewrite Hfeat. case_decide; reflexivity.
Qed.

Lemma add_all_features_Ok (d : list (Z * list value)) :
  forall (t t' : tree),
    foldM add_features t d = Ok t' ->
    appended (fun name => features_for name d) t t'.
Proof.
  induction d as [|entry d IH]; intros t t'; simpl.
  - intros [= <-]. apply appended_refl.
  - intros H. apply rbind_Ok in H as (t1 & H1 & H).
    apply add_features_Ok in H1. apply IH in H.
    exact (appended_trans _ _ _ _ _ H1 H).
Qed.

(** *** The dictionary of accessions *)

Lemma dict_find_record_acc (d : list (Z * list value)) (k k' : Z) (a : value) :
  dict_find (record_acc d k a) k'
  = if (k =? k')%Z then Some (default [] (dict_find d k) ++ [a]) else dict_find d k'.
Proof.
  induction d as [|[k0 accs0] d IH]; simpl.
  - destruct (k =? k')%Z; reflexivity.
  - destruct (k0 =? k)%Z eqn:E0; simpl.
    + apply Z.eqb_eq in E0. subst k0. destruct (k =? k')%Z; reflexivity.
    + rewrite IH. destruct (k0 =? k')%Z eqn:E1; [|reflexivity].
      apply Z.eqb_eq in E1. subst k0. rewrite Z.eqb_sym, E0. reflexivity.
Qed.

Lemma dict_find_None (d : list (Z * list value)) (k : Z) :
  dict_find d k = None <-> k ∉ map fst d.
Proof.
  induction d as [|[k0 accs0] d IH]; simpl.
  - split; [intros _; apply not_elem_of_nil | reflexivity].
  - rewrite not_elem_of_cons. destruct (k0 =? k)%Z eqn:E0.
    + apply Z.eqb_eq in E0. split; [discriminate | intros [Hne _]; congruence].
    + apply Z.eqb_neq in E0. rewrite IH. split; [intros H; split; congruence | tauto].
Qed.

Lemma keys_record_acc (d : list (Z * list value)) (k : Z) (a : value) :
  map fst (record_acc d k a)
  = match dict_find d k with
    | Some _ => map fst d
    | None => map fst d ++ [k]
    end.
Proof.
  induction d as [|[k0 accs0] d IH]; simpl; [reflexivity|].
  destruct (k0 =? k)%Z; simpl; [reflexivity|].
  rewrite IH. destruct (dict_find d k); reflexivity.
Qed.

Lemma NoDup_record_acc (d : list (Z * list value)) (k : Z) (a : value) :
  NoDup (map fst d) -> NoDup (map fst (record_acc d k a)).
Proof.
  intros Hd. rewrite keys_record_acc. destruct (dict_find d k) eqn:E; [exact Hd|].
  apply dict_find_None in E. apply NoDup_app. split; [exact Hd|]. split.
  - intros x Hx Hk. apply list_elem_of_singleton in Hk. subst x. exact (E Hx).
  - apply NoDup_singleton.
Qed.

Lemma NoDup_group_accs (ps : list Protein) :
  forall d, NoDup (map fst d) -> NoDup (map fst (group_accs d ps)).
Proof.
  induction ps as [|p ps IH]; intros d Hd; simpl; [exact Hd|].
  apply IH, NoDup_record_acc, Hd.
Qed.

Lemma accs_of_cons (k : Z) (p : Protein) (ps : list Protein) :
  accs_of k (p :: ps)
  = if decide (prot_tax p = k) then prot_acc p :: accs_of k ps else accs_of k ps.
Proof. unfold accs_of. rewrite filter_cons. case_decide; reflexivity. Qed.

(** After the loop a taxon is a key exactly when it has proteins, and it
    is bound to their accessions, in order. *)
Lemma dict_find_group_accs (ps : list Protein) (k : Z) :
  forall d,
    dict_find (group_accs d ps) k
    = match dict_find d k, accs_of k ps with
      | None, [] => None
      | o, accs => Some (default [] o ++ accs)
      end.
Proof.
  induction ps as [|p ps IH]; intros d; simpl.
  - destruct (dict_find d k) as [accs|]; simpl; [rewrite app_nil_r|]; reflexivity.
  - rewrite IH, dict_find_record_acc, accs_of_cons.
    destruct (prot_tax p =? k)%Z eqn:E.
    + apply Z.eqb_eq in E. rewrite decide_True by exact E. rewrite E.
      destruct (dict_find d k) as [accs|]; simpl;
        destruct (accs_of k ps); simpl; rewrite <- ?app_assoc; reflexivity.
    + apply Z.eqb_neq in E. rewrite decide_False by exact E. reflexivity.
Qed.

Lemma features_for_no_key (name : string) (d : list (Z * list value)) :
  (forall k, k ∈ map fst d -> pretty k <> name) -> features_for name d = [].
Proof.
  induction d as [|[k0 accs0] d IH]; intros Hkeys; [reflexivity|].
  unfold features_for. simpl. rewrite decide_False.
  - apply IH. intros k Hk. apply Hkeys. simpl. apply elem_of_cons. auto.
  - apply Hkeys. simpl. apply elem_of_cons. auto.
Qed.

Lemma features_for_key (k : Z) (d : list (Z * list value)) :
  NoDup (map fst d) ->
  features_for (pretty k) d
  = match dict_find d k with
    | Some accs => taxon_features accs
    | None => []
    end.
Proof.
  induction d as [|[k0 accs0] d IH]; intros Hd; [reflexivity|].
  simpl in Hd. apply NoDup_cons in Hd as [Hk0 Hd].
  unfold features_for. simpl. case_decide as Hname.
  - apply (inj pretty) in Hname. subst k0. rewrite Z.eqb_refl.
    fold (features_for (pretty k) d).
    rewrite features_for_no_key; [apply app_nil_r|].
    intros k' Hk' Heq. apply (inj pretty) in Heq. subst k'. exact (Hk0 Hk').
  - assert ((k0 =? k)%Z = false) as -> by (apply Z.eqb_neq; congruence).
    apply IH, Hd.
Qed.

Lemma proteins_of_pretty (k : Z) (ps : list Protein) :
  proteins_of (pretty k) ps = filter (fun p => prot_tax p = k) ps.
Proof.
  unfold proteins_of. apply list_filter_iff. intros p. split.
  - apply (inj pretty).
  - intros ->. reflexivity.
Qed.

(** The features of a node at the end: those of its proteins, if any. *)
Lemma features_for_group_accs (name : string) (ps : list Protein) :
  features_for name (group_accs [] ps)
  = match proteins_of name ps with
    | [] => []
    | group => taxon_features (map prot_acc group)
    end.
Proof.
  destruct (proteins_of name ps) as [|p0 group] eqn:Hgroup.
  - apply features_for_no_key. intros k Hk Hname. subst name.
    assert (dict_find (group_accs [] ps) k <> None) as Hfind
      by (rewrite dict_find_None; tauto).
    rewrite dict_find_group_accs in Hfind. simpl in Hfind.
    unfold accs_of in Hfind. rewrite <- proteins_of_pretty, Hgroup in Hfind.
    apply Hfind. reflexivity.
  - assert (p0 ∈ proteins_of name ps) as Hp0 by (rewrite Hgroup; apply elem_of_cons; auto).
    apply list_elem_of_filter in Hp0 as [Hname _]. subst name.
    rewrite features_for_key by (apply NoDup_group_accs; constructor).
    rewrite dict_find_group_accs. simpl.
    unfold accs_of. rewrite <- proteins_of_pretty, Hgroup. reflexivity.
Qed.

(** X11. What [gen_tree] does to the tree.  When [gen_tree] returns, the
    tree has the nodes it had, and each node has kept what was attached to
    it, followed by what its proteins bring: for each protein whose
    taxonomic id names the node, in the order of the list, its sequence bar
    then its accession; then the number of these proteins and their
    accessions (the accession itself for one protein, the accessions joined
    by commas for several).  A node that no protein names is left as it
    was. *)
Theorem gen_tree_annotations (w : world) (ipr_obj : list Protein) (queried_dom : string)
    (tree_file t : tree) :
  gen_tree w ipr_obj queried_dom tree_file = Ok t ->
  forall name,
    t !! name
    = (fun node => node ++ taxon_annotations queried_dom (proteins_of name ipr_obj))
        <$> tree_file !! name.
Proof.
  unfold gen_tree. intros H.
  apply rbind_Ok in H as ([t1 d1] & H1 & H2). simpl in H2.
  apply add_proteins_Ok in H1 as [-> H1].
  apply add_all_features_Ok in H2.
  eapply appended_ext; [|exact (appended_trans _ _ _ _ _ H1 H2)].
  intros name. simpl. rewrite features_for_group_accs.
  unfold taxon_annotations. destruct (proteins_of name ipr_obj); reflexivity.
Qed.

Lemma gen_tree_annotations_witness :
  gen_tree one_page_world [prot_a; prot_c; prot_a2] ipr1 taxonomy_tree
  = Ok annotated_tree /\
  forall name,
    annotated_tree !! name
    = (fun node => node ++ taxon_annotations ipr1
                             (proteins_of name [prot_a; prot_c; prot_a2]))
        <$> taxonomy_tree !! name.
Proof.
  assert (gen_tree one_page_world [prot_a; prot_c; prot_a2] ipr1 taxonomy_tree
          = Ok annotated_tree) as H
    by (vm_compute; reflexivity).
  split; [exact H|].
  exact (gen_tree_annotations one_page_world [prot_a; prot_c; prot_a2] ipr1 taxonomy_tree
           annotated_tree H).
Defined.

Example annotated_tree_nodes :
  annotated_tree !! "314230"
  = Some [AddFace (SeqMotifFace (string_of_list_ascii (repeat "-"%char 320))
                     [VList [VInt 10; VInt 120; VStr "()"; VNone; VInt 10;
                             VStr "DodgerBlue"; VStr "DodgerBlue";
                             VStr "arial|6|black|IPR000001"]])
                  1 "aligned";
          AddFace (TextFace (VStr "A0A000")) 0 "aligned";
          AddFace (SeqMotifFace (string_of_list_ascii (repeat "-"%char 12))
                     [VList [VInt 2; VInt 9; VStr "()"; VNone; VInt 10;
                             VStr "DodgerBlue"; VStr "DodgerBlue";
                             VStr "arial|6|black|IPR000001"]])
                  1 "aligned";
          AddFace (TextFace (VStr "A9A999")) 0 "aligned";
          AddFeature "num_prots" (VInt 2);
          AddFeature "prot_acc" (VStr "A0A000,A9A999")] /\
  annotated_tree !! "344747" = Some [] /\
  annotated_tree !! "9606" = None.
Proof. vm_compute. repeat split; reflexivity. Qed.

(** *** What [gen_tree] needs *)

Lemma qk_seq_Ok (queried_dom : string) (length : value) (doms : list (value * value))
    (kwargs : string * list value) :
  qk_seq queried_dom length doms = Ok kwargs -> is_count length.
Proof. unfold qk_seq, dashes. destruct length; simpl; intros H; (exact I || discriminate H). Qed.

Lemma join_comma_Ok (accs : list value) :
  (exists joined, join_comma accs = Ok joined) <-> Forall is_str accs.
Proof.
  induction accs as [|acc accs IH].
  - split; [constructor | simpl; eauto].
  - destruct acc as [| | | |s| |];
      try (split; [intros [j H]; discriminate H
                  |intros H; apply Forall_cons in H as [[] _]]).
    destruct accs as [|acc' accs].
    + split; [repeat constructor | simpl; eauto].
    + change (join_comma (VStr s :: acc' :: accs))
        with (rbind (join_comma (acc' :: accs)) (fun r => Ok (s +:+ "," +:+ r))).
      split.
      * intros [j H]. apply rbind_Ok in H as (r & Hr & _).
        constructor; [exact I|]. apply IH. eauto.
      * intros H. apply Forall_cons in H as [_ H]. apply IH in H as [r Hr].
        rewrite Hr. simpl. eauto.
Qed.

Lemma foldM_cons {A B} (f : A -> B -> result A) (a : A) (x : B) (l : list B) :
  foldM f a (x :: l) = rbind (f a x) (fun a' => foldM f a' l).
Proof. reflexivity. Qed.

(** The first loop goes through only if each protein finds its node and
    gets its sequence bar. *)
Lemma add_proteins_needs (w : world) (queried_dom : string) (ps : list Protein) :
  forall (t : tree) (d : list (Z * list value)) (r : tree * list (Z * list value)),
    foldM (add_protein w queried_dom) (t, d) ps = Ok r ->
    Forall (fun p => is_Some (t !! pretty (prot_tax p)) /\ is_count (prot_len p) /\
                     bar_accepted w queried_dom p) ps.
Proof.
  induction ps as [|p ps IH]; intros t d r; [constructor|].
  rewrite foldM_cons. intros H. apply rbind_Ok in H as ([t1 d1] & Hp & H).
  pose proof (add_protein_Ok w queried_dom t t1 d d1 p Hp) as [_ Happ].
  unfold add_protein, new_SeqMotifFace in Hp.
  apply rbind_Ok in Hp as ([seq motifs] & Hseq & Hp).
  apply rbind_Ok in Hp as (seqFace & Hface & Hp).
  apply rbind_Ok in Hface as ([] & Hface & _).
  apply rbind_Ok in Hp as (ta & Ha & _).
  apply attach_Ok in Ha as (node & Hnode & _).
  constructor.
  - split; [eauto|]. split; [exact (qk_seq_Ok _ _ _ _ Hseq)|].
    exists seq, motifs. split; [exact Hseq | exact Hface].
  - apply IH in H. eapply Forall_impl; [exact H|].
    intros q [Hq Hc]. split; [|exact Hc].
    apply (appended_is_Some _ t t1 _ Happ). exact Hq.
Qed.

Lemma add_features_needs (t t' : tree) (entry : Z * list value) :
  add_features t entry = Ok t' ->
  is_Some (t !! pretty (fst entry)) /\ joinable (snd entry).
Proof.
  destruct entry as [tax accs]. unfold add_features. simpl.
  intros H. apply rbind_Ok in H as (t1 & H1 & H).
  apply attach_Ok in H1 as (node & Hnode & _). split; [eauto|].
  destruct accs as [|acc [|acc' accs]]; simpl; [constructor|exact I|].
  apply rbind_Ok in H as (joined & Hj & _). apply join_comma_Ok. eauto.
Qed.

Lemma add_all_features_needs (d : list (Z * list value)) :
  forall t t' : tree,
    foldM add_features t d = Ok t' ->
    Forall (fun entry => is_Some (t !! pretty (fst entry)) /\ joinable (snd entry)) d.
Proof.
  induction d as [|entry d IH]; intros t t'; [constructor|].
  rewrite foldM_cons. intros H. apply rbind_Ok in H as (t1 & H1 & H).
  constructor; [exact (add_features_needs _ _ _ H1)|].
  apply IH in H. eapply Forall_impl; [exact H|].
  intros e [He Hj]. split; [|exact Hj].
  apply (appended_is_Some _ t t1 _ (add_features_Ok _ _ _ H1)). exact He.
Qed.

Lemma dict_find_elem (d : list (Z * list value)) (k : Z) (accs : list value) :
  NoDup (map fst d) -> ((k, accs) ∈ d <-> dict_find d k = Some accs).
Proof.
  induction d as [|[k0 accs0] d IH]; intros Hd; simpl.
  - split; [intros H; apply elem_of_nil in H; destruct H | discriminate].
  - simpl in Hd. apply NoDup_cons in Hd as [Hk0 Hd].
    rewrite elem_of_cons. destruct (k0 =? k)%Z eqn:E.
    + apply Z.eqb_eq in E. subst k0. split.
      * intros [[= ->]|Hin]; [reflexivity|].
        exfalso. apply Hk0. apply list_elem_of_fmap. exists (k, accs). auto.
      * intros [= ->]. auto.
    + apply Z.eqb_neq in E. rewrite <- (IH Hd). split.
      * intros [[= -> _]|Hin]; [congruence | exact Hin].
      * auto.
Qed.

(** The entries of the dictionary are the taxa that have proteins. *)
Lemma group_accs_elem (ps : list Protein) (k : Z) (accs : list value) :
  (k, accs) ∈ group_accs [] ps <-> accs = accs_of k ps /\ accs <> [].
Proof.
  rewrite dict_find_elem by (apply NoDup_group_accs; constructor).
  rewrite dict_find_group_accs. simpl.
  destruct (accs_of k ps) as [|a l]; split.
  - discriminate.
  - intros [-> H]. congruence.
  - intros [= <-]. split; [reflexivity | discriminate].
  - intros [-> _]. reflexivity.
Qed.

(** X12. What the annotation of the tree needs.  [gen_tree] returns only
    if every protein has a node of the tree named after its taxonomic id, a
    length that is an integer and a sequence bar that ete3 accepts, and
    every taxon with two proteins or more has only strings as accessions.
    A list in which one protein lacks a node, has a length that is null, a
    string or a float, or shares its taxon while an accession of the taxon
    is no string, makes [gen_tree] raise. *)
Theorem gen_tree_needs (w : world) (ipr_obj : list Protein) (queried_dom : string)
    (tree_file t : tree) :
  gen_tree w ipr_obj queried_dom tree_file = Ok t ->
  Forall (fun p => is_Some (tree_file !! pretty (prot_tax p)) /\ is_count (prot_len p) /\
                   bar_accepted w queried_dom p) ipr_obj /\
  (forall k, 2 <= length (accs_of k ipr_obj) -> Forall is_str (accs_of k ipr_obj)).
Proof.
  unfold gen_tree. intros H.
  apply rbind_Ok in H as ([t1 d1] & H1 & H2). simpl in H2.
  split; [exact (add_proteins_needs w queried_dom ipr_obj tree_file [] _ H1)|].
  apply add_proteins_Ok in H1 as [-> _].
  apply add_all_features_needs in H2.
  intros k Hlen.
  assert ((k, accs_of k ipr_obj) ∈ group_accs [] ipr_obj) as Hin.
  { apply group_accs_elem. split; [reflexivity|].
    intros Hnil. rewrite Hnil in Hlen. simpl in Hlen. lia. }
  rewrite Forall_forall in H2. destruct (H2 _ Hin) as [_ Hjoin].
  simpl in Hjoin. destruct (accs_of k ipr_obj) as [|a [|b l]]; simpl in *;
    [constructor | lia | exact Hjoin].
Qed.

Lemma gen_tree_needs_witness :
  gen_tree one_page_world [prot_a; prot_c; prot_a2] ipr1 taxonomy_tree
  = Ok annotated_tree /\
  Forall (fun p => is_Some (taxonomy_tree !! pretty (prot_tax p)) /\
                   is_count (prot_len p) /\ bar_accepted one_page_world ipr1 p)
         [prot_a; prot_c; prot_a2] /\
  (forall k, 2 <= length (accs_of k [prot_a; prot_c; prot_a2]) ->
             Forall is_str (accs_of k [prot_a; prot_c; prot_a2])).
Proof.
  assert (gen_tree one_page_world [prot_a; prot_c; prot_a2] ipr1 taxonomy_tree
          = Ok annotated_tree) as H
    by (vm_compute; reflexivity).
  split; [exact H|].
  exact (gen_tree_needs one_page_world [prot_a; prot_c; prot_a2] ipr1 taxonomy_tree
           annotated_tree H).
Defined.

(** A protein without node, a length that is null, an accession that is
    null in a taxon of two proteins, a bar that ete3 refuses (no residue,
    no fragment); an accession that is null alone in its taxon goes
    through. *)
Example gen_tree_raises_samples :
  gen_tree one_page_world [prot_b] ipr1 taxonomy_tree = Raise TreeError /\
  gen_tree one_page_world [prot_of "A0A000" 320 314230 []; prot_a_no_length] ipr1
    taxonomy_tree
  = Raise TypeError /\
  gen_tree one_page_world [prot_a_null_acc; prot_a] ipr1 taxonomy_tree = Raise TypeError /\
  gen_tree one_page_world [prot_of "Z0Z000" 0 314230 []] ipr1 taxonomy_tree
  = Raise ValueError /\
  (exists t, gen_tree one_page_world [prot_a_null_acc] ipr1 taxonomy_tree = Ok t).
Proof. vm_compute. repeat split; try reflexivity. eauto. Qed.



(** ** The filter stage: what a record is read for *)

(** X14. Only the first location of the first entry is read: two records
    with the same metadata, whose first entries have the same first
    location, are reshaped alike, whatever their other entries and the
    other locations of their first entries. *)
Theorem extract_first_location_only (r r' e e' loc : value) (es es' locs locs' : list value) :
  (Ok r).["metadata"]%py = (Ok r').["metadata"]%py ->
  (Ok r).["entries"]%py = Ok (VList (e :: es)) ->
  (Ok r').["entries"]%py = Ok (VList (e' :: es')) ->
  (Ok e).["entry_protein_locations"]%py = Ok (VList (loc :: locs)) ->
  (Ok e').["entry_protein_locations"]%py = Ok (VList (loc :: locs')) ->
  extract r = extract r'.
Proof.
  intros Hmeta He He' Hloc Hloc'.
  assert ((Ok r).["entries"].[0].["entry_protein_locations"].[0]%py = Ok loc) as H.
  { rewrite He. change ((Ok (VList (e :: es))).[0]%py) with (Ok e).
    rewrite Hloc. reflexivity. }
  assert ((Ok r').["entries"].[0].["entry_protein_locations"].[0]%py = Ok loc) as H'.
  { rewrite He'. change ((Ok (VList (e' :: es'))).[0]%py) with (Ok e').
    rewrite Hloc'. reflexivity. }
  unfold extract. rewrite Hmeta, H, H'. reflexivity.
Qed.

Lemma extract_first_location_only_witness :
  extract rec_a_more = extract rec_a /\ extract rec_a = Ok (VStr "A0A000", [(VInt 10, VInt 120)], VInt 320, 314230%Z).
Proof.
  split; [|vm_compute; reflexivity].
  apply (extract_first_location_only rec_a_more rec_a
           (VDict [("entry_protein_locations",
                    VList [VDict [("fragments",
                                   VList [VDict [("start", VInt 10); ("end", VInt 120)]])];
                           VDict [("fragments",
                                   VList [VDict [("start", VInt 200); ("end", VInt 260)]])]])])
           (VDict [("entry_protein_locations",
                    VList [VDict [("fragments",
                                   VList [VDict [("start", VInt 10); ("end", VInt 120)]])]])])
           (VDict [("fragments", VList [VDict [("start", VInt 10); ("end", VInt 120)]])])
           [VDict [("entry_protein_locations", VList [])]] []
           [VDict [("fragments", VList [VDict [("start", VInt 200); ("end", VInt 260)]])]]
           []);
    vm_compute; reflexivity.
Defined.
